(** * rdp: the persistence core ([rdp/crud/crud.py])

    A shallow embedding of class [Crud]: the upserts of the two dimension
    tables, the measurement writer, the filtered query and the two lookups.
    The relational store is a record of row lists, a SQLAlchemy [Session]
    is a computation over that store which journals every [commit], and
    the exceptions the methods let escape are the error cases of [Result]. *)

From Stdlib Require Import ZArith List String Bool Lia.
From Stdlib Require Import Permutation Sorted DecimalString.
From Stdlib Require DecimalPos DecimalZ.
From Stdlib Require Import Floats.PrimFloat.
Import ListNotations.
Local Open Scope Z_scope.

(** ** Exceptions *)

(** [IntegrityError], [NoResultFound] and [MultipleResultsFound] are the
    [sqlalchemy.exc] classes; [TypeError] is what Python's ["%d" % None]
    raises; [OverflowError] is what the [sqlite3] driver raises when a
    Python [int] bound as a statement parameter does not fit an SQLite
    INTEGER. *)
Inductive Exception : Set :=
| IntegrityError
| NoResultFound
| MultipleResultsFound
| TypeError
| OverflowError.

Inductive Result (A : Type) : Type :=
| Return (a : A)
| Raise (e : Exception).
Arguments Return {A} a.
Arguments Raise {A} e.

(** ** Python values used by the upserts *)

(** An [int] is a [Z], a [float] a binary64 [float], and a [str] the
    [string] of its UTF-8 bytes, which is how the store receives it. *)
Module Py.

(** Truth value of an optional string argument or attribute: [None] and
    the empty string are both falsy. *)
Definition truthy (s : option string) : bool :=
  match s with
  | Some (String _ _) => true
  | Some EmptyString => false
  | None => false
  end.

(** [str(n)] for an [int]: decimal digits, a leading [-] below zero. *)
Definition str (n : Z) : string := NilZero.string_of_int (Z.to_int n).

(** [prefix + "%d" % n], as in ["TYPE_%d" % value_type_id]: an [int] is
    printed in decimal, [None] raises [TypeError]. *)
Definition percent_d (prefix : string) (n : option Z) : Result (option string) :=
  match n with
  | Some k => Return (Some (prefix ++ str k)%string)
  | None => Raise TypeError
  end.

End Py.

(** ** Schema *)

(** Modelled from the spec: [rdp/crud/model.py], which declares the mapped
    classes [ValueType], [DeviceType] and [Value], is not among the sources.
    The layout is the one the specification gives,
    [value_type(id PK, name, unit)], [device_type(id PK, name, location)],
    [value(id PK autogen, time, value, value_type_id FK -> value_type.id)],
    with the attribute names [crud.py] reads and writes. A string column
    holds [None] (NULL) until it is assigned; the [value] column holds
    [None] where the store kept NULL for the float it was handed. *)
Module ValueType.
Record t : Type := mk { id : Z; type_name : option string; type_unit : option string }.
End ValueType.

Module DeviceType.
Record t : Type := mk { id : Z; name : option string; location : option string }.
End DeviceType.

Module Value.
Record t : Type := mk { id : Z; time : Z; value : option float; value_type_id : Z }.
End Value.

Record Database : Type := mkDatabase {
  tbl_value_type : list ValueType.t;
  tbl_device_type : list DeviceType.t;
  tbl_value : list Value.t
}.

(** What [Base.metadata.create_all] leaves in a fresh engine. *)
Definition empty_db : Database := mkDatabase [] [] [].

(** The integrity constraints declared on the [value] table besides its
    generated key: given the rows present, is the new row accepted?  They
    belong to the missing [model.py], so [Crud] takes them as a parameter. *)
Record Schema : Type := mkSchema {
  value_constraint : list Value.t -> Value.t -> bool
}.

(** Modelled from the spec: section 4.2 states that [model.py] puts no
    uniqueness constraint on [Value] (append-only, no deduplication). *)
Definition spec_schema : Schema := mkSchema (fun _ _ => true).

(** ** The store: what the emitted SQL does to the tables *)

Module Sql.

(** The integers an SQLite INTEGER holds: signed, 64 bits. *)
Definition int64 (n : Z) : bool :=
  (-9223372036854775808 <=? n) && (n <=? 9223372036854775807).

(** The [int] parameters of a statement can all be bound; [None] is bound
    as NULL. *)
Definition bindable (params : list (option Z)) : bool :=
  forallb (fun p => match p with Some n => int64 n | None => true end) params.

(** Executing a statement: the driver binds the parameters first and
    raises [OverflowError] on an [int] outside the 64-bit range; otherwise
    the statement yields what it denotes. *)
Definition execute {A : Type} (params : list (option Z)) (denotes : A) : Result A :=
  if bindable params then Return denotes else Raise OverflowError.

(** A float parameter as the store keeps it: SQLite has no NaN and keeps
    NULL in its place. *)
Definition bind_float (v : float) : option float :=
  if PrimFloat.is_nan v then None else Some v.

(** Key the store gives a row inserted without one (an SQLite
    [INTEGER PRIMARY KEY]): one more than the largest key in use,
    1 in an empty table. *)
Definition generated_key (ids : list Z) : Z :=
  match ids with
  | [] => 1
  | k :: ks => 1 + fold_right Z.max k ks
  end.

(** The rows [WHERE value_type.id = k] keeps; [id == None] is
    [id IS NULL], which no keyed row satisfies. *)
Definition value_type_rows (k : option Z) (db : Database) : list ValueType.t :=
  match k with
  | Some k => filter (fun r => ValueType.id r =? k) (tbl_value_type db)
  | None => []
  end.

Definition device_type_rows (k : option Z) (db : Database) : list DeviceType.t :=
  match k with
  | Some k => filter (fun r => DeviceType.id r =? k) (tbl_device_type db)
  | None => []
  end.

(** [select(ValueType).where(ValueType.id == k)], executed with [k] as
    its parameter. *)
Definition select_value_type (k : option Z) (db : Database) : Result (list ValueType.t) :=
  execute [k] (value_type_rows k db).

(** [select(DeviceType).where(DeviceType.id == k)], executed. *)
Definition select_device_type (k : option Z) (db : Database) : Result (list DeviceType.t) :=
  execute [k] (device_type_rows k db).

(** [Result.one()]. *)
Definition one {A : Type} (rows : list A) : Result A :=
  match rows with
  | [] => Raise NoResultFound
  | [r] => Return r
  | _ :: _ :: _ => Raise MultipleResultsFound
  end.

(** [Result.one_or_none()]. *)
Definition one_or_none {A : Type} (rows : list A) : Result (option A) :=
  match rows with
  | [] => Return None
  | [r] => Return (Some r)
  | _ :: _ :: _ => Raise MultipleResultsFound
  end.

(** INSERT of a pending [ValueType]; the primary key rejects a key in use. *)
Definition insert_value_type (k : option Z) (nm un : option string) (db : Database)
  : Result (ValueType.t * Database) :=
  let ids := map ValueType.id (tbl_value_type db) in
  let key := match k with Some k => k | None => generated_key ids end in
  match execute [k] tt with
  | Raise e => Raise e
  | Return _ =>
      if existsb (Z.eqb key) ids then Raise IntegrityError
      else
        let row := ValueType.mk key nm un in
        Return (row, mkDatabase (tbl_value_type db ++ [row]) (tbl_device_type db) (tbl_value db))
  end.

(** UPDATE of a persistent [ValueType], addressed by its key. *)
Definition update_value_type (row : ValueType.t) (db : Database)
  : Result (ValueType.t * Database) :=
  let upd r := if ValueType.id r =? ValueType.id row then row else r in
  execute [Some (ValueType.id row)]
    (row, mkDatabase (map upd (tbl_value_type db)) (tbl_device_type db) (tbl_value db)).

Definition insert_device_type (k : option Z) (nm loc : option string) (db : Database)
  : Result (DeviceType.t * Database) :=
  let ids := map DeviceType.id (tbl_device_type db) in
  let key := match k with Some k => k | None => generated_key ids end in
  match execute [k] tt with
  | Raise e => Raise e
  | Return _ =>
      if existsb (Z.eqb key) ids then Raise IntegrityError
      else
        let row := DeviceType.mk key nm loc in
        Return (row, mkDatabase (tbl_value_type db) (tbl_device_type db ++ [row]) (tbl_value db))
  end.

Definition update_device_type (row : DeviceType.t) (db : Database)
  : Result (DeviceType.t * Database) :=
  let upd r := if DeviceType.id r =? DeviceType.id row then row else r in
  execute [Some (DeviceType.id row)]
    (row, mkDatabase (tbl_value_type db) (map upd (tbl_device_type db)) (tbl_value db)).

(** INSERT of a pending [Value] under the key the store generates.  The
    time and the type id are bound as integers, the value as a float; the
    declared constraints of the table then decide whether the row is
    accepted. *)
Definition insert_value (schema : Schema) (t : Z) (v : float) (type_id : Z) (db : Database)
  : Result (unit * Database) :=
  let row := Value.mk (generated_key (map Value.id (tbl_value db))) t (bind_float v) type_id in
  match execute [Some t; Some type_id] tt with
  | Raise e => Raise e
  | Return _ =>
      if value_constraint schema (tbl_value db) row
      then Return (tt, mkDatabase (tbl_value_type db) (tbl_device_type db) (tbl_value db ++ [row]))
      else Raise IntegrityError
  end.

(** [stmt.join(Value.value_type)]: every selected value paired with each
    [value_type] row its foreign key names. *)
Definition join_value_type (stmt : list Value.t) (db : Database)
  : list (Value.t * ValueType.t) :=
  flat_map
    (fun v => map (pair v)
                (filter (fun ty => ValueType.id ty =? Value.value_type_id v)
                        (tbl_value_type db)))
    stmt.

(** [stmt.order_by(Value.time)]: ascending; rows of equal time keep the
    order they had (SQL leaves that order open). *)
Fixpoint insert_by_time (v : Value.t) (sorted : list Value.t) : list Value.t :=
  match sorted with
  | [] => [v]
  | w :: rest =>
      if Value.time v <=? Value.time w then v :: w :: rest
      else w :: insert_by_time v rest
  end.

Definition order_by_time (stmt : list Value.t) : list Value.t :=
  fold_right insert_by_time [] stmt.

End Sql.

(** ** Sessions *)

(** A method of [Crud] runs on the engine's database and yields what it
    returns or raises, together with the snapshots it committed, oldest
    first.  A session left without [commit] (an exception, a read) commits
    nothing. *)
Record Outcome (A : Type) : Type := mkOutcome {
  result : Result A;
  commits : list Database
}.
Arguments mkOutcome {A} result commits.
Arguments result {A} o.
Arguments commits {A} o.

Definition Session (A : Type) : Type := Database -> Outcome A.

(** The database a later session finds: the last committed snapshot. *)
Definition durable {A : Type} (db : Database) (o : Outcome A) : Database :=
  last (commits o) db.

Definition ret {A : Type} (a : A) : Session A :=
  fun _ => mkOutcome (Return a) [].

Definition raise {A : Type} (e : Exception) : Session A :=
  fun _ => mkOutcome (Raise e) [].

Definition bind {A B : Type} (m : Session A) (f : A -> Session B) : Session B :=
  fun db =>
    let o := m db in
    match result o with
    | Return a =>
        let o' := f a (durable db o) in
        mkOutcome (result o') (commits o ++ commits o')
    | Raise e => mkOutcome (Raise e) (commits o)
    end.

(** [session.scalars(stmt)]: execute a statement and read its rows. *)
Definition scalars {A : Type} (stmt : Database -> Result A) : Session A :=
  fun db => mkOutcome (stmt db) [].

(** A Python expression that may raise. *)
Definition eval {A : Type} (r : Result A) : Session A :=
  fun _ => mkOutcome r [].

(** [session.add(..); session.commit()]: flush the pending write; when the
    store accepts it the new state is committed, when it raises the
    transaction is rolled back and the exception escapes. *)
Definition commit {A : Type} (flush : Database -> Result (A * Database)) : Session A :=
  fun db =>
    match flush db with
    | Return (a, db') => mkOutcome (Return a) [db']
    | Raise e => mkOutcome (Raise e) []
    end.

(** An object handed out after [session.commit()] and the end of its
    [with Session] block: the commit expired every attribute and the
    closed session detached the object, so no column can be read from it
    (that raises [DetachedInstanceError]); what it keeps is its identity,
    the primary key of its row. *)
Record Detached (R : Type) : Type := detached { identity : Z }.
Arguments detached {R} identity.
Arguments identity {R} d.

Declare Scope session_scope.
Delimit Scope session_scope with session.
Notation "x <- m ;; k" := (bind m (fun x => k))
  (at level 61, m at next level, right associativity) : session_scope.

(** ** Class [Crud] *)

Section Crud.

(** The schema of [self._engine]. *)
Variable schema : Schema.

Local Open Scope session_scope.

(** Attribute of the object an upsert works on: of the loaded row, or of
    a freshly constructed [ValueType(id=..)], whose columns are [None]. *)
Definition attr {R : Type} (column : R -> option string) (obj : option R) : option string :=
  match obj with
  | Some row => column row
  | None => None
  end.

(** Lines 35-52.  The [for] loop keeps the last selected row; the two
    [if/elif] pairs decide each column; the commit inserts a new object
    and updates a loaded one; the object is returned after the commit and
    outside its session. *)
Definition add_or_update_value_type
    (value_type_id : option Z) (value_type_name value_type_unit : option string)
  : Session (Detached ValueType.t) :=
  rows <- scalars (Sql.select_value_type value_type_id) ;;
  let db_type := fold_left (fun _ ty => Some ty) rows None in
  type_name <- eval
    (if Py.truthy value_type_name then Return value_type_name
     else if negb (Py.truthy (attr ValueType.type_name db_type))
          then Py.percent_d "TYPE_"%string value_type_id
          else Return (attr ValueType.type_name db_type)) ;;
  type_unit <- eval
    (if Py.truthy value_type_unit then Return value_type_unit
     else if negb (Py.truthy (attr ValueType.type_unit db_type))
          then Py.percent_d "UNIT_"%string value_type_id
          else Return (attr ValueType.type_unit db_type)) ;;
  stored <- commit
    match db_type with
    | Some row => Sql.update_value_type (ValueType.mk (ValueType.id row) type_name type_unit)
    | None => Sql.insert_value_type value_type_id type_name type_unit
    end ;;
  ret (detached (ValueType.id stored)).

(** Lines 62-72.  The upsert is a call of the method above, which opens
    and commits a session of its own.  The object it returns is added to
    the outer session, which finds its row by its identity; that key is
    what the new [Value] references.  The outer commit writes the value
    row; [IntegrityError] is logged and re-raised, anything else escapes
    as it is. *)
Definition add_value (value_time value_type : Z) (value_value : float) : Session unit :=
  db_type <- add_or_update_value_type (Some value_type) None None ;;
  commit (Sql.insert_value schema value_time value_value (identity db_type)).

(** Lines 80-82. *)
Definition get_value_types : Session (list ValueType.t) :=
  scalars (fun db => Sql.execute [] (tbl_value_type db)).

(** Lines 93-95. *)
Definition get_value_type (value_type_id : Z) : Session ValueType.t :=
  rows <- scalars (Sql.select_value_type (Some value_type_id)) ;;
  eval (Sql.one rows).

(** Lines 112-124: the statement grows by one clause per supplied filter,
    is ordered last and is executed with the supplied filters as its
    parameters. *)
Definition get_values (value_type_id start end_ : option Z) : Session (list Value.t) :=
  scalars (fun db =>
    let stmt := tbl_value db in
    let stmt :=
      match value_type_id with
      | Some k =>
          map fst (filter (fun row => ValueType.id (snd row) =? k)
                          (Sql.join_value_type stmt db))
      | None => stmt
      end in
    let stmt :=
      match start with
      | Some s => filter (fun v => Value.time v >=? s) stmt
      | None => stmt
      end in
    let stmt :=
      match end_ with
      | Some e => filter (fun v => Value.time v <=? e) stmt
      | None => stmt
      end in
    Sql.execute [value_type_id; start; end_] (Sql.order_by_time stmt)).

(** Lines 135-140. *)
Definition get_device_type (device_type_id : Z) : Session DeviceType.t :=
  rows <- scalars (Sql.select_device_type (Some device_type_id)) ;;
  device_type <- eval (Sql.one_or_none rows) ;;
  match device_type with
  | None => raise NoResultFound
  | Some found => ret found
  end.

(** Lines 159-186.  The [except IntegrityError] branch rolls back and
    re-raises, which is what a refused [commit] does here. *)
Definition add_or_update_device
    (device_type_id : option Z) (device_name device_location : option string)
  : Session (Detached DeviceType.t) :=
  rows <- scalars (Sql.select_device_type device_type_id) ;;
  let db_device_type := fold_left (fun _ device_type => Some device_type) rows None in
  name <- eval
    (if Py.truthy device_name then Return device_name
     else if negb (Py.truthy (attr DeviceType.name db_device_type))
          then Py.percent_d "DEVICE_TYPE_"%string device_type_id
          else Return (attr DeviceType.name db_device_type)) ;;
  location <- eval
    (if Py.truthy device_location then Return device_location
     else if negb (Py.truthy (attr DeviceType.location db_device_type))
          then Py.percent_d "DEVICE_LOCATION_"%string device_type_id
          else Return (attr DeviceType.location db_device_type)) ;;
  stored <- commit
    match db_device_type with
    | Some row => Sql.update_device_type (DeviceType.mk (DeviceType.id row) name location)
    | None => Sql.insert_device_type device_type_id name location
    end ;;
  ret (detached (DeviceType.id stored)).

(** *** Sequences of calls *)

Inductive Call : Type :=
| AddOrUpdateValueType (value_type_id : option Z) (value_type_name value_type_unit : option string)
| AddOrUpdateDevice (device_type_id : option Z) (device_name device_location : option string)
| AddValue (value_time value_type : Z) (value_value : float)
| GetValueTypes
| GetValueType (value_type_id : Z)
| GetValues (value_type_id start end_ : option Z)
| GetDeviceType (device_type_id : Z).

(** The database a call leaves behind, whether it returned or raised. *)
Definition after (call : Call) (db : Database) : Database :=
  match call with
  | AddOrUpdateValueType i n u => durable db (add_or_update_value_type i n u db)
  | AddOrUpdateDevice i n l => durable db (add_or_update_device i n l db)
  | AddValue t k v => durable db (add_value t k v db)
  | GetValueTypes => durable db (get_value_types db)
  | GetValueType i => durable db (get_value_type i db)
  | GetValues i s e => durable db (get_values i s e db)
  | GetDeviceType i => durable db (get_device_type i db)
  end.

Definition run (calls : list Call) (db : Database) : Database :=
  fold_left (fun state call => after call state) calls db.

End Crud.

(** * Notions used in the statements *)

(** The column rule of the dimension resolver in the specification's
    words: a supplied non-empty value wins, else a non-empty stored value
    stays, else the default is synthesized. *)
Definition resolved (supplied stored : option string) (default : string) : option string :=
  if Py.truthy supplied then supplied
  else if Py.truthy stored then stored
  else Some default.

(** The row the [for] loop of an upsert ends on. *)
Definition loaded_value_type (k : Z) (db : Database) : option ValueType.t :=
  fold_left (fun _ ty => Some ty) (Sql.value_type_rows (Some k) db) None.

Definition loaded_device_type (k : Z) (db : Database) : option DeviceType.t :=
  fold_left (fun _ ty => Some ty) (Sql.device_type_rows (Some k) db) None.

(** The row an upsert of id [k] writes. *)
Definition upserted_value_type (k : Z) (n u : option string) (db : Database) : ValueType.t :=
  let stored := loaded_value_type k db in
  ValueType.mk k
    (resolved n (attr ValueType.type_name stored) ("TYPE_" ++ Py.str k))
    (resolved u (attr ValueType.type_unit stored) ("UNIT_" ++ Py.str k)).

Definition upserted_device_type (k : Z) (n l : option string) (db : Database) : DeviceType.t :=
  let stored := loaded_device_type k db in
  DeviceType.mk k
    (resolved n (attr DeviceType.name stored) ("DEVICE_TYPE_" ++ Py.str k))
    (resolved l (attr DeviceType.location stored) ("DEVICE_LOCATION_" ++ Py.str k)).

Definition non_empty (s : option string) : Prop :=
  exists text, s = Some text /\ text <> EmptyString.

Definition value_type_named (r : ValueType.t) : Prop :=
  non_empty (ValueType.type_name r) /\ non_empty (ValueType.type_unit r).

Definition device_type_named (r : DeviceType.t) : Prop :=
  non_empty (DeviceType.name r) /\ non_empty (DeviceType.location r).

(** Every dimension row carries both of its descriptive columns. *)
Definition named (db : Database) : Prop :=
  Forall value_type_named (tbl_value_type db)
  /\ Forall device_type_named (tbl_device_type db).

(** The keys and the reference of section 6's layout. *)
Definition value_type_key (db : Database) : Prop := NoDup (map ValueType.id (tbl_value_type db)).
Definition device_type_key (db : Database) : Prop := NoDup (map DeviceType.id (tbl_device_type db)).
Definition value_key (db : Database) : Prop := NoDup (map Value.id (tbl_value db)).
Definition value_foreign_key (db : Database) : Prop :=
  forall v, In v (tbl_value db) ->
            In (Value.value_type_id v) (map ValueType.id (tbl_value_type db)).

Definition consistent (db : Database) : Prop :=
  value_type_key db /\ device_type_key db /\ value_key db /\ value_foreign_key db.

Section UpsertShapes.

Context {R : Type} (key : R -> Z) (ok : R -> Prop).

(** What one upsert may do to its table: nothing (it raised), append a
    row under a key not in use, or rewrite the rows of one key. *)
Definition upsert_shape (tbl tbl' : list R) : Prop :=
  tbl' = tbl
  \/ (exists row, ok row /\ ~ In (key row) (map key tbl) /\ tbl' = tbl ++ [row])
  \/ (exists row, ok row
                  /\ tbl' = map (fun r => if key r =? key row then row else r) tbl).

End UpsertShapes.



(** * Route handlers ([rdp/api/main.py]) *)

(** The handlers that call [Crud] with typed arguments, as the Python
    functions they are: what the body returns, the [HTTPException] it
    raises, or the exception it lets escape to the framework. *)
Module Api.

Inductive Response (A : Type) : Type :=
| Returns (body : A)
| HTTPException (status_code : Z) (detail : string)
| Escapes (e : Exception).
Arguments Returns {A} body.
Arguments HTTPException {A} status_code detail.
Arguments Escapes {A} e.

(** Modelled from the spec: [rdp/api/api_types.py] is not among the
    sources; [ValueNoID] carries the three fields [post_value] reads, typed
    as the arguments of [add_value] they are passed to. *)
Record ValueNoID : Type := mkValueNoID {
  time : Z;
  value_type_id : Z;
  value : float
}.

(** Lines 29-30. *)
Definition read_types (db : Database) : Response (list ValueType.t) :=
  match result (get_value_types db) with
  | Return types => Returns types
  | Raise e => Escapes e
  end.

(** Lines 45-49: only [NoResultFound] is caught. *)
Definition read_type (id : Z) (db : Database) : Response ValueType.t :=
  match result (get_value_type id db) with
  | Return value_type => Returns value_type
  | Raise NoResultFound => HTTPException 404 "Item not found"
  | Raise e => Escapes e
  end.

(** Lines 88-93.  The handler builds its [HTTPException] with the keyword
    [deltail], which the constructor does not take: reaching it raises
    [TypeError]. *)
Definition get_values (type_id start end_ : option Z) (db : Database)
  : Response (list Value.t) :=
  match result (get_values type_id start end_ db) with
  | Return values => Returns values
  | Raise NoResultFound => Escapes TypeError
  | Raise e => Escapes e
  end.

(** Lines 153-157. *)
Definition read_device (id : Z) (db : Database) : Response DeviceType.t :=
  match result (get_device_type id db) with
  | Return device => Returns device
  | Raise NoResultFound => HTTPException 404 "Device not found"
  | Raise e => Escapes e
  end.

(** Lines 161-163: nothing is caught; the second component is the
    database the request leaves behind. *)
Definition post_value (schema : Schema) (value : ValueNoID) (db : Database)
  : Response string * Database :=
  let o := add_value schema (time value) (value_type_id value) (Api.value value) db in
  (match result o with
   | Return _ => Returns "Value added!"%string
   | Raise e => Escapes e
   end,
   durable db o).

End Api.

(** * Properties *)

(** ** Rows addressed by an integer key *)

Section KeyedRows.

Context {R : Type} (key : R -> Z).

(** The [for] loop of the upserts leaves the last row in its variable. *)
Lemma loop_from_some (rows : list R) (a : R) :
  exists r, fold_left (fun _ r => Some r) rows (Some a) = Some r.
Proof.
  revert a. induction rows as [|r rows IH]; intros a; simpl; [now exists a|apply IH].
Qed.

Lemma loop_none (rows : list R) :
  fold_left (fun _ r => Some r) rows None = None -> rows = [].
Proof.
  destruct rows as [|r rows]; [reflexivity|]. simpl. intros H.
  destruct (loop_from_some rows r) as [x Hx]. congruence.
Qed.

Lemma loop_some (rows : list R) (acc : option R) (r : R) :
  fold_left (fun _ r => Some r) rows acc = Some r -> acc = Some r \/ In r rows.
Proof.
  revert acc. induction rows as [|r' rows IH]; intros acc H; simpl in *; [now left|].
  apply IH in H. destruct H as [H|H]; [injection H as ->; right; now left | right; now right].
Qed.

Lemma filter_key_absent (k : Z) (l : list R) :
  filter (fun r => key r =? k) l = [] -> existsb (Z.eqb k) (map key l) = false.
Proof.
  induction l as [|r l IH]; simpl; [reflexivity|].
  rewrite (Z.eqb_sym k). destruct (key r =? k); [discriminate|]. exact IH.
Qed.

Lemma filter_key_present (k : Z) (l : list R) :
  existsb (Z.eqb k) (map key l) = false -> filter (fun r => key r =? k) l = [].
Proof.
  induction l as [|r l IH]; simpl; [reflexivity|].
  rewrite (Z.eqb_sym k). destruct (key r =? k); [discriminate|]. exact IH.
Qed.

Lemma filter_key_In (k : Z) (l : list R) (r : R) :
  In r (filter (fun r => key r =? k) l) -> In r l /\ key r = k.
Proof.
  intros H. apply filter_In in H. destruct H as [H1 H2]. split; [exact H1|now apply Z.eqb_eq].
Qed.

(** An UPDATE turns exactly the rows of that key into the new row. *)
Lemma filter_key_update (row : R) (l : list R) :
  filter (fun r => key r =? key row) (map (fun r => if key r =? key row then row else r) l)
  = map (fun _ => row) (filter (fun r => key r =? key row) l).
Proof.
  induction l as [|r l IH]; simpl; [reflexivity|].
  destruct (key r =? key row) eqn:E.
  - rewrite Z.eqb_refl. simpl. now rewrite IH.
  - rewrite E. exact IH.
Qed.

Lemma filter_other_update (k : Z) (row : R) (l : list R) :
  key row = k ->
  filter (fun r => negb (key r =? k)) (map (fun r => if key r =? key row then row else r) l)
  = filter (fun r => negb (key r =? k)) l.
Proof.
  intros <-. induction l as [|r l IH]; simpl; [reflexivity|].
  destruct (key r =? key row) eqn:E.
  - rewrite Z.eqb_refl. simpl. exact IH.
  - rewrite E. simpl. now rewrite IH.
Qed.

Lemma map_key_update (row : R) (l : list R) :
  map key (map (fun r => if key r =? key row then row else r) l) = map key l.
Proof.
  induction l as [|r l IH]; simpl; [reflexivity|].
  rewrite IH. destruct (key r =? key row) eqn:E; [|reflexivity].
  apply Z.eqb_eq in E. now rewrite E.
Qed.

Lemma update_unchanged (row : R) (l : list R) :
  (forall r, In r l -> key r = key row -> r = row) ->
  map (fun r => if key r =? key row then row else r) l = l.
Proof.
  induction l as [|r l IH]; intros H; simpl; [reflexivity|].
  rewrite IH by (intros; apply H; [now right|assumption]).
  destruct (key r =? key row) eqn:E; [|reflexivity].
  apply Z.eqb_eq in E. now rewrite (H r (or_introl eq_refl) E).
Qed.

(** Under the primary key a selection by key has at most one row. *)
Lemma primary_key_select (k : Z) (l : list R) :
  NoDup (map key l) ->
  filter (fun r => key r =? k) l = []
  \/ exists r, filter (fun r => key r =? k) l = [r] /\ In r l /\ key r = k.
Proof.
  induction l as [|r l IH]; intros ND; simpl; [now left|].
  inversion ND as [|? ? Hnotin ND']; subst.
  destruct (key r =? k) eqn:E.
  - right. exists r. apply Z.eqb_eq in E. split; [|split; [now left|exact E]].
    f_equal. apply filter_key_present.
    destruct (existsb (Z.eqb k) (map key l)) eqn:X; [|reflexivity].
    apply existsb_exists in X. destruct X as [x [Hin Hx]]. apply Z.eqb_eq in Hx.
    subst. contradiction.
  - destruct (IH ND') as [H|[r' [H1 [H2 H3]]]]; [now left|].
    right. exists r'. split; [exact H1|split; [now right|exact H3]].
Qed.


End KeyedRows.

Lemma fold_max_above (ks : list Z) (k0 k : Z) :
  In k (k0 :: ks) -> k <= fold_right Z.max k0 ks.
Proof.
  induction ks as [|k1 ks IH]; simpl.
  - intros [->|[]]. lia.
  - intros [->|[->|H]].
    + specialize (IH (or_introl eq_refl)). lia.
    + lia.
    + specialize (IH (or_intror H)). lia.
Qed.

Lemma generated_key_above (ids : list Z) (k : Z) :
  In k ids -> k < Sql.generated_key ids.
Proof.
  destruct ids as [|k0 ks]; [contradiction|]. intros H.
  apply fold_max_above in H. unfold Sql.generated_key. lia.
Qed.

Lemma generated_key_fresh (ids : list Z) : ~ In (Sql.generated_key ids) ids.
Proof. intros H. apply generated_key_above in H. lia. Qed.

(** ** Binding parameters *)

Lemma execute_in_range {A : Type} (k : Z) (denotes : A) :
  Sql.int64 k = true -> Sql.execute [Some k] denotes = Return denotes.
Proof.
  intros H. unfold Sql.execute, Sql.bindable. cbn [forallb]. now rewrite H.
Qed.

Lemma execute_overflow {A : Type} (k : Z) (denotes : A) :
  Sql.int64 k = false -> Sql.execute [Some k] denotes = Raise OverflowError.
Proof.
  intros H. unfold Sql.execute, Sql.bindable. cbn [forallb]. now rewrite H.
Qed.

Lemma select_value_type_in_range (k : Z) (db : Database) :
  Sql.int64 k = true ->
  Sql.select_value_type (Some k) db = Return (Sql.value_type_rows (Some k) db).
Proof. intros H. unfold Sql.select_value_type. now apply execute_in_range. Qed.

Lemma select_device_type_in_range (k : Z) (db : Database) :
  Sql.int64 k = true ->
  Sql.select_device_type (Some k) db = Return (Sql.device_type_rows (Some k) db).
Proof. intros H. unfold Sql.select_device_type. now apply execute_in_range. Qed.

(** ** The upserts, as equations *)

Lemma loaded_value_type_key (k : Z) (db : Database) (r : ValueType.t) :
  loaded_value_type k db = Some r -> In r (tbl_value_type db) /\ ValueType.id r = k.
Proof.
  intros H. apply loop_some in H. destruct H as [H|H]; [discriminate|].
  now apply (filter_key_In ValueType.id) in H.
Qed.

Lemma loaded_device_type_key (k : Z) (db : Database) (r : DeviceType.t) :
  loaded_device_type k db = Some r -> In r (tbl_device_type db) /\ DeviceType.id r = k.
Proof.
  intros H. apply loop_some in H. destruct H as [H|H]; [discriminate|].
  now apply (filter_key_In DeviceType.id) in H.
Qed.

Lemma add_or_update_value_type_eq (k : Z) (n u : option string) (db : Database) :
  Sql.int64 k = true ->
  add_or_update_value_type (Some k) n u db =
  let row := upserted_value_type k n u db in
  mkOutcome (Return (detached k))
    [mkDatabase
       match loaded_value_type k db with
       | Some _ => map (fun r => if ValueType.id r =? ValueType.id row then row else r)
                       (tbl_value_type db)
       | None => tbl_value_type db ++ [row]
       end
       (tbl_device_type db) (tbl_value db)].
Proof.
  intros Hk.
  unfold add_or_update_value_type, upserted_value_type, resolved, bind, scalars, eval, commit.
  rewrite (select_value_type_in_range k db Hk).
  cbn [result commits durable last app Py.percent_d].
  fold (loaded_value_type k db).
  destruct (loaded_value_type k db) as [r|] eqn:L.
  - apply loaded_value_type_key in L. destruct L as [_ E].
    unfold Sql.update_value_type. cbn [attr ValueType.id]. rewrite E.
    destruct (Py.truthy n), (Py.truthy (ValueType.type_name r)),
      (Py.truthy u), (Py.truthy (ValueType.type_unit r));
      cbn [negb result commits durable last app];
      rewrite !(execute_in_range k _ Hk); reflexivity.
  - apply loop_none in L. cbn [attr Py.truthy negb].
    assert (X : existsb (Z.eqb k) (map ValueType.id (tbl_value_type db)) = false)
      by (apply (filter_key_absent ValueType.id); exact L).
    unfold Sql.insert_value_type.
    destruct (Py.truthy n), (Py.truthy u); cbn [result commits durable last app];
      rewrite !(execute_in_range k _ Hk), X; reflexivity.
Qed.

Lemma add_or_update_value_type_overflow (k : Z) (n u : option string) (db : Database) :
  Sql.int64 k = false ->
  add_or_update_value_type (Some k) n u db = mkOutcome (Raise OverflowError) [].
Proof.
  intros Hk. unfold add_or_update_value_type, bind, scalars, Sql.select_value_type.
  now rewrite (execute_overflow k _ Hk).
Qed.

Lemma add_or_update_device_eq (k : Z) (n l : option string) (db : Database) :
  Sql.int64 k = true ->
  add_or_update_device (Some k) n l db =
  let row := upserted_device_type k n l db in
  mkOutcome (Return (detached k))
    [mkDatabase (tbl_value_type db)
       match loaded_device_type k db with
       | Some _ => map (fun r => if DeviceType.id r =? DeviceType.id row then row else r)
                       (tbl_device_type db)
       | None => tbl_device_type db ++ [row]
       end
       (tbl_value db)].
Proof.
  intros Hk.
  unfold add_or_update_device, upserted_device_type, resolved, bind, scalars, eval, commit.
  rewrite (select_device_type_in_range k db Hk).
  cbn [result commits durable last app Py.percent_d].
  fold (loaded_device_type k db).
  destruct (loaded_device_type k db) as [r|] eqn:L.
  - apply loaded_device_type_key in L. destruct L as [_ E].
    unfold Sql.update_device_type. cbn [attr DeviceType.id]. rewrite E.
    destruct (Py.truthy n), (Py.truthy (DeviceType.name r)),
      (Py.truthy l), (Py.truthy (DeviceType.location r));
      cbn [negb result commits durable last app];
      rewrite !(execute_in_range k _ Hk); reflexivity.
  - apply loop_none in L. cbn [attr Py.truthy negb].
    assert (X : existsb (Z.eqb k) (map DeviceType.id (tbl_device_type db)) = false)
      by (apply (filter_key_absent DeviceType.id); exact L).
    unfold Sql.insert_device_type.
    destruct (Py.truthy n), (Py.truthy l); cbn [result commits durable last app];
      rewrite !(execute_in_range k _ Hk), X; reflexivity.
Qed.

Lemma add_or_update_device_overflow (k : Z) (n l : option string) (db : Database) :
  Sql.int64 k = false ->
  add_or_update_device (Some k) n l db = mkOutcome (Raise OverflowError) [].
Proof.
  intros Hk. unfold add_or_update_device, bind, scalars, Sql.select_device_type.
  now rewrite (execute_overflow k _ Hk).
Qed.

Lemma insert_value_type_generated (n u : option string) (db : Database) :
  Sql.insert_value_type None n u db
  = let row := ValueType.mk (Sql.generated_key (map ValueType.id (tbl_value_type db))) n u in
    Return (row, mkDatabase (tbl_value_type db ++ [row]) (tbl_device_type db) (tbl_value db)).
Proof.
  unfold Sql.insert_value_type. cbn [Sql.execute Sql.bindable forallb andb].
  destruct (existsb _ _) eqn:X; [|reflexivity].
  apply existsb_exists in X. destruct X as [x [Hin Hx]]. apply Z.eqb_eq in Hx. subst x.
  now apply generated_key_fresh in Hin.
Qed.

Lemma insert_device_type_generated (n l : option string) (db : Database) :
  Sql.insert_device_type None n l db
  = let row := DeviceType.mk (Sql.generated_key (map DeviceType.id (tbl_device_type db))) n l in
    Return (row, mkDatabase (tbl_value_type db) (tbl_device_type db ++ [row]) (tbl_value db)).
Proof.
  unfold Sql.insert_device_type. cbn [Sql.execute Sql.bindable forallb andb].
  destruct (existsb _ _) eqn:X; [|reflexivity].
  apply existsb_exists in X. destruct X as [x [Hin Hx]]. apply Z.eqb_eq in Hx. subst x.
  now apply generated_key_fresh in Hin.
Qed.

(** Without an id both columns must be supplied: a default cannot be
    formatted from [None]. *)
Lemma add_or_update_value_type_no_id (n u : option string) (db : Database) :
  add_or_update_value_type None n u db =
  if Py.truthy n && Py.truthy u
  then
    let row := ValueType.mk (Sql.generated_key (map ValueType.id (tbl_value_type db))) n u in
    mkOutcome (Return (detached (ValueType.id row)))
      [mkDatabase (tbl_value_type db ++ [row]) (tbl_device_type db) (tbl_value db)]
  else mkOutcome (Raise TypeError) [].
Proof.
  unfold add_or_update_value_type, bind, scalars, eval, commit.
  cbn [result commits durable last app Py.percent_d Sql.select_value_type Sql.value_type_rows
       Sql.execute Sql.bindable forallb andb fold_left attr Py.truthy negb].
  destruct (Py.truthy n), (Py.truthy u); cbn [andb result commits durable last app];
    try reflexivity.
  rewrite insert_value_type_generated. reflexivity.
Qed.

Lemma add_or_update_device_no_id (n l : option string) (db : Database) :
  add_or_update_device None n l db =
  if Py.truthy n && Py.truthy l
  then
    let row := DeviceType.mk (Sql.generated_key (map DeviceType.id (tbl_device_type db))) n l in
    mkOutcome (Return (detached (DeviceType.id row)))
      [mkDatabase (tbl_value_type db) (tbl_device_type db ++ [row]) (tbl_value db)]
  else mkOutcome (Raise TypeError) [].
Proof.
  unfold add_or_update_device, bind, scalars, eval, commit.
  cbn [result commits durable last app Py.percent_d Sql.select_device_type Sql.device_type_rows
       Sql.execute Sql.bindable forallb andb fold_left attr Py.truthy negb].
  destruct (Py.truthy n), (Py.truthy l); cbn [andb result commits durable last app];
    try reflexivity.
  rewrite insert_device_type_generated. reflexivity.
Qed.

(** The measurement writer is two transactions: the upsert's own commit,
    then the commit of the value row, which the driver refuses for a time
    outside the 64-bit range and the table's constraints may refuse. *)
Lemma add_value_eq (schema : Schema) (t k : Z) (v : float) (db : Database) :
  Sql.int64 k = true ->
  add_value schema t k v db =
  let db1 := durable db (add_or_update_value_type (Some k) None None db) in
  let row := Value.mk (Sql.generated_key (map Value.id (tbl_value db))) t (Sql.bind_float v) k in
  if Sql.int64 t
  then
    if value_constraint schema (tbl_value db) row
    then mkOutcome (Return tt)
           [db1; mkDatabase (tbl_value_type db1) (tbl_device_type db) (tbl_value db ++ [row])]
    else mkOutcome (Raise IntegrityError) [db1]
  else mkOutcome (Raise OverflowError) [db1].
Proof.
  intros Hk. unfold add_value, bind. rewrite (add_or_update_value_type_eq k None None db Hk).
  cbn [result commits durable last app identity]. unfold commit, Sql.insert_value.
  unfold Sql.execute, Sql.bindable. cbn [forallb]. rewrite Hk, andb_true_r.
  cbn [tbl_value tbl_value_type tbl_device_type].
  destruct (Sql.int64 t); [|reflexivity].
  destruct (value_constraint schema (tbl_value db) _); reflexivity.
Qed.

Lemma add_value_overflow (schema : Schema) (t k : Z) (v : float) (db : Database) :
  Sql.int64 k = false ->
  add_value schema t k v db = mkOutcome (Raise OverflowError) [].
Proof.
  intros Hk. unfold add_value, bind.
  now rewrite (add_or_update_value_type_overflow k None None db Hk).
Qed.
(** ** Invariants of the store *)

Lemma truthy_non_empty (s : option string) : Py.truthy s = true <-> non_empty s.
Proof.
  split.
  - destruct s as [[|c text]|]; simpl; try discriminate.
    intros _. exists (String c text). split; [reflexivity|discriminate].
  - intros [text [-> H]]. destruct text; [contradiction|reflexivity].
Qed.

Lemma resolved_truthy (supplied stored : option string) (c : Ascii.ascii) (rest : string) :
  Py.truthy (resolved supplied stored (String c rest)) = true.
Proof.
  unfold resolved. destruct (Py.truthy supplied) eqn:A; [exact A|].
  destruct (Py.truthy stored) eqn:B; [exact B|reflexivity].
Qed.

Section UpsertShape.

Context {R : Type} (key : R -> Z) (ok : R -> Prop).

Lemma upsert_shape_key (tbl tbl' : list R) :
  upsert_shape key ok tbl tbl' -> NoDup (map key tbl) -> NoDup (map key tbl').
Proof.
  intros [->|[[row [_ [Hn ->]]]|[row [_ ->]]]] ND.
  - exact ND.
  - rewrite map_app. simpl.
    apply (Permutation_NoDup (l := key row :: map key tbl)).
    + apply Permutation_cons_append.
    + now constructor.
  - now rewrite map_key_update.
Qed.

Lemma upsert_shape_ok (tbl tbl' : list R) :
  upsert_shape key ok tbl tbl' -> Forall ok tbl -> Forall ok tbl'.
Proof.
  intros [->|[[row [Hok [_ ->]]]|[row [Hok ->]]]] F.
  - exact F.
  - apply Forall_app. split; [exact F|]. now constructor.
  - apply Forall_forall. intros r Hin. apply in_map_iff in Hin.
    destruct Hin as [r0 [<- Hin]]. destruct (key r0 =? key row); [exact Hok|].
    rewrite Forall_forall in F. now apply F.
Qed.

Lemma upsert_shape_keys_stay (tbl tbl' : list R) (k : Z) :
  upsert_shape key ok tbl tbl' -> In k (map key tbl) -> In k (map key tbl').
Proof.
  intros [->|[[row [_ [_ ->]]]|[row [_ ->]]]] Hin.
  - exact Hin.
  - rewrite map_app. apply in_or_app. now left.
  - now rewrite map_key_update.
Qed.

End UpsertShape.

Lemma existsb_eqb_false (k : Z) (ids : list Z) :
  existsb (Z.eqb k) ids = false -> ~ In k ids.
Proof.
  intros H Hin. assert (X : existsb (Z.eqb k) ids = true); [|congruence].
  apply existsb_exists. exists k. split; [exact Hin|apply Z.eqb_refl].
Qed.

Lemma upserted_value_type_named (k : Z) (n u : option string) (db : Database) :
  value_type_named (upserted_value_type k n u db).
Proof.
  split; apply truthy_non_empty; cbn [upserted_value_type ValueType.type_name
    ValueType.type_unit String.append]; apply resolved_truthy.
Qed.

Lemma upserted_device_type_named (k : Z) (n l : option string) (db : Database) :
  device_type_named (upserted_device_type k n l db).
Proof.
  split; apply truthy_non_empty; cbn [upserted_device_type DeviceType.name
    DeviceType.location String.append]; apply resolved_truthy.
Qed.

Lemma add_or_update_value_type_shape (i : option Z) (n u : option string) (db : Database) :
  let db' := durable db (add_or_update_value_type i n u db) in
  upsert_shape ValueType.id value_type_named (tbl_value_type db) (tbl_value_type db')
  /\ tbl_device_type db' = tbl_device_type db
  /\ tbl_value db' = tbl_value db.
Proof.
  destruct i as [k|]; cbv zeta.
  - destruct (Sql.int64 k) eqn:Hk;
      [|rewrite (add_or_update_value_type_overflow k n u db Hk);
        split; [now left|split; reflexivity]].
    rewrite (add_or_update_value_type_eq k n u db Hk). cbv zeta. unfold durable.
    cbn [commits last tbl_value_type tbl_device_type tbl_value].
    split; [|split; reflexivity].
    destruct (loaded_value_type k db) as [r|] eqn:L.
    + right; right. exists (upserted_value_type k n u db).
      split; [apply upserted_value_type_named|reflexivity].
    + right; left. exists (upserted_value_type k n u db).
      split; [apply upserted_value_type_named|]. split; [|reflexivity].
      apply existsb_eqb_false, (filter_key_absent ValueType.id).
      now apply loop_none in L.
  - rewrite add_or_update_value_type_no_id.
    destruct (Py.truthy n) eqn:Tn, (Py.truthy u) eqn:Tu; cbn [andb];
      try (split; [now left|split; reflexivity]).
    cbv zeta. unfold durable. cbn [commits last tbl_value_type tbl_device_type tbl_value].
    split; [|split; reflexivity].
    right; left. eexists. split; [|split; [|reflexivity]].
    + split; now apply truthy_non_empty.
    + cbn [ValueType.id]. apply generated_key_fresh.
Qed.

Lemma add_or_update_device_shape (i : option Z) (n l : option string) (db : Database) :
  let db' := durable db (add_or_update_device i n l db) in
  upsert_shape DeviceType.id device_type_named (tbl_device_type db) (tbl_device_type db')
  /\ tbl_value_type db' = tbl_value_type db
  /\ tbl_value db' = tbl_value db.
Proof.
  destruct i as [k|]; cbv zeta.
  - destruct (Sql.int64 k) eqn:Hk;
      [|rewrite (add_or_update_device_overflow k n l db Hk);
        split; [now left|split; reflexivity]].
    rewrite (add_or_update_device_eq k n l db Hk). cbv zeta. unfold durable.
    cbn [commits last tbl_value_type tbl_device_type tbl_value].
    split; [|split; reflexivity].
    destruct (loaded_device_type k db) as [r|] eqn:L.
    + right; right. exists (upserted_device_type k n l db).
      split; [apply upserted_device_type_named|reflexivity].
    + right; left. exists (upserted_device_type k n l db).
      split; [apply upserted_device_type_named|]. split; [|reflexivity].
      apply existsb_eqb_false, (filter_key_absent DeviceType.id).
      now apply loop_none in L.
  - rewrite add_or_update_device_no_id.
    destruct (Py.truthy n) eqn:Tn, (Py.truthy l) eqn:Tl; cbn [andb];
      try (split; [now left|split; reflexivity]).
    cbv zeta. unfold durable. cbn [commits last tbl_value_type tbl_device_type tbl_value].
    split; [|split; reflexivity].
    right; left. eexists. split; [|split; [|reflexivity]].
    + split; now apply truthy_non_empty.
    + cbn [DeviceType.id]. apply generated_key_fresh.
Qed.

(** The reads commit nothing. *)
Lemma get_value_types_commits (db : Database) : commits (get_value_types db) = [].
Proof. reflexivity. Qed.

Lemma get_value_type_commits (k : Z) (db : Database) : commits (get_value_type k db) = [].
Proof.
  unfold get_value_type, bind, scalars, eval. cbn [result commits durable last app].
  destruct (Sql.select_value_type _ _); reflexivity.
Qed.

Lemma get_values_commits (i s e : option Z) (db : Database) :
  commits (get_values i s e db) = [].
Proof. reflexivity. Qed.

Lemma get_device_type_commits (k : Z) (db : Database) : commits (get_device_type k db) = [].
Proof.
  unfold get_device_type, bind, scalars, eval. cbn [result commits durable last app].
  destruct (Sql.select_device_type _ _) as [rows|e]; [|reflexivity].
  cbn [result commits durable last app].
  destruct (Sql.one_or_none _) as [[found|]|e]; reflexivity.
Qed.

Lemma upsert_creates_key (k : Z) (n u : option string) (db : Database) :
  Sql.int64 k = true ->
  In k (map ValueType.id
          (tbl_value_type (durable db (add_or_update_value_type (Some k) n u db)))).
Proof.
  intros Hk. rewrite (add_or_update_value_type_eq k n u db Hk). cbv zeta. unfold durable.
  cbn [commits last tbl_value_type].
  destruct (loaded_value_type k db) as [r|] eqn:L.
  - rewrite map_key_update. apply loaded_value_type_key in L. destruct L as [Hin <-].
    now apply in_map.
  - rewrite map_app. apply in_or_app. right. now left.
Qed.

Lemma add_value_durable (schema : Schema) (t k : Z) (v : float) (db : Database) :
  let db1 := durable db (add_or_update_value_type (Some k) None None db) in
  let db2 := durable db (add_value schema t k v db) in
  db2 = db1
  \/ (Sql.int64 k = true
      /\ db2 = mkDatabase (tbl_value_type db1) (tbl_device_type db)
                 (tbl_value db
                  ++ [Value.mk (Sql.generated_key (map Value.id (tbl_value db))) t
                        (Sql.bind_float v) k])).
Proof.
  cbv zeta. destruct (Sql.int64 k) eqn:Hk.
  - rewrite (add_value_eq schema t k v db Hk). cbv zeta.
    destruct (Sql.int64 t); [|now left].
    destruct (value_constraint schema _ _); [right; split|left]; reflexivity.
  - rewrite (add_value_overflow schema t k v db Hk),
      (add_or_update_value_type_overflow k None None db Hk). now left.
Qed.

Lemma after_named (schema : Schema) (call : Call) (db : Database) :
  named db -> named (after schema call db).
Proof.
  intros [Hv Hd]. destruct call as [i n u|i n l|t k v| |i|i s e|i]; cbn [after].
  - destruct (add_or_update_value_type_shape i n u db) as [S [E1 _]].
    split; [eapply upsert_shape_ok; eassumption|now rewrite E1].
  - destruct (add_or_update_device_shape i n l db) as [S [E1 _]].
    split; [now rewrite E1|eapply upsert_shape_ok; eassumption].
  - destruct (add_or_update_value_type_shape (Some k) None None db) as [S [E1 _]].
    assert (N1 : Forall value_type_named
                   (tbl_value_type (durable db (add_or_update_value_type (Some k) None None db))))
      by (eapply upsert_shape_ok; eassumption).
    destruct (add_value_durable schema t k v db) as [->|[_ ->]].
    + split; [exact N1|now rewrite E1].
    + split; [exact N1|exact Hd].
  - split; assumption.
  - unfold durable. rewrite get_value_type_commits. split; assumption.
  - split; assumption.
  - unfold durable. rewrite get_device_type_commits. split; assumption.
Qed.

Lemma after_consistent (schema : Schema) (call : Call) (db : Database) :
  consistent db -> consistent (after schema call db).
Proof.
  intros (Kv & Kd & Kx & Fk). destruct call as [i n u|i n l|t k v| |i|i s e|i]; cbn [after].
  - destruct (add_or_update_value_type_shape i n u db) as [S [E1 E2]].
    unfold consistent, value_type_key, device_type_key, value_key, value_foreign_key.
    rewrite E1, E2. repeat split; try assumption.
    + eapply upsert_shape_key; eassumption.
    + intros v Hv. eapply upsert_shape_keys_stay; [eassumption|now apply Fk].
  - destruct (add_or_update_device_shape i n l db) as [S [E1 E2]].
    unfold consistent, value_type_key, device_type_key, value_key, value_foreign_key.
    rewrite E1, E2. repeat split; try assumption.
    eapply upsert_shape_key; eassumption.
  - destruct (add_or_update_value_type_shape (Some k) None None db) as [S [E1 E2]].
    assert (C1 : consistent (durable db (add_or_update_value_type (Some k) None None db))).
    { unfold consistent, value_type_key, device_type_key, value_key, value_foreign_key.
      rewrite E1, E2. repeat split; try assumption.
      - eapply upsert_shape_key; eassumption.
      - intros x Hx. eapply upsert_shape_keys_stay; [eassumption|now apply Fk]. }
    destruct (add_value_durable schema t k v db) as [->|[Hk ->]]; [exact C1|].
    apply (upsert_creates_key k None None db) in Hk.
    destruct C1 as (Kv1 & _ & _ & Fk1).
    unfold consistent, value_type_key, device_type_key, value_key, value_foreign_key.
    cbn [tbl_value_type tbl_device_type tbl_value]. repeat split; try assumption.
    + rewrite map_app. simpl.
      apply (Permutation_NoDup (l := Sql.generated_key (map Value.id (tbl_value db))
                                       :: map Value.id (tbl_value db))).
      * apply Permutation_cons_append.
      * constructor; [apply generated_key_fresh|exact Kx].
    + intros x Hx. apply in_app_or in Hx. destruct Hx as [Hx|[<-|[]]].
      * apply Fk1. now rewrite E2.
      * exact Hk.
  - repeat split; assumption.
  - unfold durable. rewrite get_value_type_commits. repeat split; assumption.
  - repeat split; assumption.
  - unfold durable. rewrite get_device_type_commits. repeat split; assumption.
Qed.

Lemma run_invariant (P : Database -> Prop) (schema : Schema) :
  (forall call db, P db -> P (after schema call db)) ->
  forall calls db, P db -> P (run schema calls db).
Proof.
  intros step calls. induction calls as [|call calls IH]; intros db H; [exact H|].
  apply IH, step, H.
Qed.

Lemma empty_db_consistent : consistent empty_db.
Proof. repeat split; try constructor. intros v []. Qed.

(** The store a sequence of calls builds from a fresh engine keeps its
    keys unique and its references resolved. *)
Lemma run_consistent (schema : Schema) (calls : list Call) :
  consistent (run schema calls empty_db).
Proof.
  apply run_invariant; [apply after_consistent|apply empty_db_consistent].
Qed.

(** ** Dimension resolver *)

Lemma select_after_upsert (k : Z) (n u : option string) (db : Database) :
  Sql.int64 k = true -> value_type_key db ->
  Sql.value_type_rows (Some k) (durable db (add_or_update_value_type (Some k) n u db))
  = [upserted_value_type k n u db].
Proof.
  intros Hk ND. rewrite (add_or_update_value_type_eq k n u db Hk). cbv zeta. unfold durable.
  cbn [commits last Sql.value_type_rows tbl_value_type].
  destruct (loaded_value_type k db) as [r|] eqn:L.
  - change k with (ValueType.id (upserted_value_type k n u db)) at 1.
    rewrite (filter_key_update ValueType.id). cbn [upserted_value_type ValueType.id].
    apply loaded_value_type_key in L. destruct L as [Hin Hr].
    destruct (primary_key_select ValueType.id k (tbl_value_type db) ND)
      as [E|[r' [E _]]]; rewrite E; [|reflexivity].
    exfalso. assert (X : In r (filter (fun x => ValueType.id x =? k) (tbl_value_type db))).
    { apply filter_In. split; [exact Hin|now apply Z.eqb_eq]. }
    rewrite E in X. exact X.
  - apply loop_none in L. cbn [Sql.value_type_rows] in L.
    rewrite filter_app, L. cbn [filter upserted_value_type ValueType.id app].
    now rewrite Z.eqb_refl.
Qed.

Lemma loaded_of_select (k : Z) (db : Database) (row : ValueType.t) :
  Sql.value_type_rows (Some k) db = [row] -> loaded_value_type k db = Some row.
Proof. unfold loaded_value_type. now intros ->. Qed.

(** An upsert that resolves to the stored row writes the store back as it was. *)
Lemma upsert_fixpoint (k : Z) (n u : option string) (db : Database) (row : ValueType.t) :
  Sql.int64 k = true ->
  Sql.value_type_rows (Some k) db = [row] ->
  upserted_value_type k n u db = row ->
  durable db (add_or_update_value_type (Some k) n u db) = db.
Proof.
  intros Hk Sel Up. rewrite (add_or_update_value_type_eq k n u db Hk). cbv zeta.
  unfold durable. cbn [commits last]. rewrite (loaded_of_select _ _ _ Sel), Up.
  rewrite (update_unchanged ValueType.id); [now destruct db|].
  intros r Hin Hr.
  assert (X : In r (Sql.value_type_rows (Some k) db)).
  { apply filter_In. split; [exact Hin|]. apply Z.eqb_eq. rewrite Hr, <- Up. reflexivity. }
  rewrite Sel in X. destruct X as [<-|[]]. reflexivity.
Qed.


Lemma upsert_returns (k : Z) (n u : option string) (db : Database) :
  Sql.int64 k = true ->
  result (add_or_update_value_type (Some k) n u db) = Return (detached k).
Proof. intros Hk. now rewrite (add_or_update_value_type_eq k n u db Hk). Qed.


(** C1, as the code has it.  Idempotent defaulting holds for an id [k] of
    the signed 64-bit range under which the store holds no name and no
    unit (no row of id [k], or one whose two columns are empty), the
    [value_type] key being unique: two upserts of [k] that supply neither
    both return, the row [(k, "TYPE_<k>", "UNIT_<k>")] is afterwards the
    only one stored under [k], and the second call leaves the store as the
    first one left it. *)
Theorem upsert_value_type_twice_defaults (k : Z) (db : Database) :
  Sql.int64 k = true ->
  value_type_key db ->
  Forall (fun r => Py.truthy (ValueType.type_name r) = false
                   /\ Py.truthy (ValueType.type_unit r) = false)
         (Sql.value_type_rows (Some k) db) ->
  let o1 := add_or_update_value_type (Some k) None None db in
  let db1 := durable db o1 in
  let o2 := add_or_update_value_type (Some k) None None db1 in
  let db2 := durable db1 o2 in
  let row := ValueType.mk k (Some ("TYPE_" ++ Py.str k)%string)
                            (Some ("UNIT_" ++ Py.str k)%string) in
  result o1 = Return (detached k)
  /\ result o2 = Return (detached k)
  /\ Sql.select_value_type (Some k) db2 = Return [row]
  /\ db2 = db1.
Proof.
  intros Hk ND Empty. cbv zeta.
  assert (R1 : upserted_value_type k None None db
               = ValueType.mk k (Some ("TYPE_" ++ Py.str k)%string)
                                (Some ("UNIT_" ++ Py.str k)%string)).
  { unfold upserted_value_type, resolved. cbn [Py.truthy].
    destruct (loaded_value_type k db) as [r|] eqn:L; [|reflexivity].
    apply loop_some in L. destruct L as [L|L]; [discriminate|].
    rewrite Forall_forall in Empty. destruct (Empty r L) as [E1 E2].
    cbn [attr]. rewrite E1, E2. reflexivity. }
  pose proof (select_after_upsert k None None db Hk ND) as Sel1. rewrite R1 in Sel1.
  assert (R2 : upserted_value_type k None None
                 (durable db (add_or_update_value_type (Some k) None None db))
               = ValueType.mk k (Some ("TYPE_" ++ Py.str k)%string)
                                (Some ("UNIT_" ++ Py.str k)%string)).
  { unfold upserted_value_type. rewrite (loaded_of_select _ _ _ Sel1). reflexivity. }
  pose proof (upsert_fixpoint k None None _ _ Hk Sel1 R2) as Fix.
  rewrite !(upsert_returns k _ _ _ Hk), Fix, (select_value_type_in_range k _ Hk), Sel1.
  repeat split.
Qed.

Lemma upsert_value_type_twice_defaults_witness :
  let db := mkDatabase [ValueType.mk 5 None (Some EmptyString); ValueType.mk 6 (Some "CO2"%string) None]
                       [] [] in
  let db2 := durable db (add_or_update_value_type (Some 5) None None db) in
  Sql.select_value_type (Some 5) (durable db2 (add_or_update_value_type (Some 5) None None db2))
  = Return [ValueType.mk 5 (Some "TYPE_5"%string) (Some "UNIT_5"%string)].
Proof.
  apply (upsert_value_type_twice_defaults 5
           (mkDatabase [ValueType.mk 5 None (Some EmptyString);
                        ValueType.mk 6 (Some "CO2"%string) None] [] [])).
  - reflexivity.
  - unfold value_type_key. simpl. repeat constructor; simpl; intuition lia.
  - simpl. repeat constructor.
Defined.

(** C1, as stated, fails.  In the store the call
    [add_or_update_value_type(5, "CO2", "ppm")] builds, two upserts of 5
    that supply nothing leave the row [(5, "CO2", "ppm")], not
    [(5, "TYPE_5", "UNIT_5")]; and for the id [2^63] both calls raise
    [OverflowError] and no row is stored. *)
Lemma upsert_value_type_twice_keeps_stored :
  let db0 := durable empty_db
               (add_or_update_value_type (Some 5) (Some "CO2"%string) (Some "ppm"%string)
                  empty_db) in
  let db1 := durable db0 (add_or_update_value_type (Some 5) None None db0) in
  let db2 := durable db1 (add_or_update_value_type (Some 5) None None db1) in
  let big := 9223372036854775808 in
  let o1 := add_or_update_value_type (Some big) None None empty_db in
  let o2 := add_or_update_value_type (Some big) None None (durable empty_db o1) in
  tbl_value_type db2 = [ValueType.mk 5 (Some "CO2"%string) (Some "ppm"%string)]
  /\ tbl_value_type db2 <> [ValueType.mk 5 (Some "TYPE_5"%string) (Some "UNIT_5"%string)]
  /\ result o1 = Raise OverflowError
  /\ result o2 = Raise OverflowError
  /\ tbl_value_type (durable (durable empty_db o1) o2) = [].
Proof.
  cbv zeta. repeat split; try reflexivity. vm_compute. discriminate.
Qed.





(** ** Measurement writer *)





(** ** Query engine *)















Example get_values_by_type :
  result (get_values (Some 1) None None
            (run spec_schema
               [AddValue 100 1 97%float; AddValue 200 1 98.5%float; AddValue 150 2 0.5%float]
               empty_db))
  = Return [Value.mk 1 100 (Some 97%float) 1; Value.mk 2 200 (Some 98.5%float) 1].
Proof. reflexivity. Qed.

Example get_values_from_start :
  result (get_values None (Some 150) None
            (run spec_schema
               [AddValue 100 1 97%float; AddValue 200 1 98.5%float; AddValue 150 2 0.5%float]
               empty_db))
  = Return [Value.mk 3 150 (Some 0.5%float) 2; Value.mk 2 200 (Some 98.5%float) 1].
Proof. reflexivity. Qed.

Example get_values_orders_by_time :
  result (get_values None None None
            (run spec_schema
               [AddValue 5 1 1%float; AddValue 1 1 2%float; AddValue 3 1 3%float] empty_db))
  = Return [Value.mk 2 1 (Some 2%float) 1; Value.mk 3 3 (Some 3%float) 1;
            Value.mk 1 5 (Some 1%float) 1].
Proof. reflexivity. Qed.

(** ** Atomicity of the measurement writer *)

Lemma upsert_keeps_references (k : Z) (n u : option string) (db : Database) :
  value_foreign_key db ->
  value_foreign_key (durable db (add_or_update_value_type (Some k) n u db)).
Proof.
  intros Fk v Hv. destruct (add_or_update_value_type_shape (Some k) n u db) as [S [_ E]].
  cbv zeta in S, E. rewrite E in Hv.
  eapply upsert_shape_keys_stay; [exact S|now apply Fk].
Qed.

(** C5, as the code has it.  For a type id [k] of the signed 64-bit range
    (unique type keys), [add_value] is two units of work: the upsert
    commits first, in the session of [add_or_update_value_type], and the
    value row is committed after it.  The call returns, raises
    [IntegrityError] or, exactly when the time is outside the 64-bit
    range, raises [OverflowError]; whenever it raises, the value row is
    not written and the committed upsert stays, so the store then holds a
    row for type [k], newly created if there was none; when it returns,
    the second commit adds exactly the value row.  In every committed
    snapshot each value still references a stored type. *)
Theorem add_value_commits_upsert_first
    (schema : Schema) (t k : Z) (v : float) (db : Database) :
  Sql.int64 k = true -> value_type_key db ->
  let upsert := add_or_update_value_type (Some k) None None db in
  let db1 := durable db upsert in
  let o := add_value schema t k v db in
  commits upsert = [db1]
  /\ In k (map ValueType.id (tbl_value_type db1))
  /\ tbl_value db1 = tbl_value db
  /\ (result o = Return tt \/ result o = Raise IntegrityError
      \/ result o = Raise OverflowError)
  /\ (result o = Raise OverflowError <-> Sql.int64 t = false)
  /\ (forall e, result o = Raise e -> commits o = [db1])
  /\ (result o = Return tt ->
      exists key,
        commits o = [db1; mkDatabase (tbl_value_type db1) (tbl_device_type db1)
                            (tbl_value db ++ [Value.mk key t (Sql.bind_float v) k])])
  /\ (value_foreign_key db -> Forall value_foreign_key (commits o)).
Proof.
  intros Hk _. cbv zeta. pose proof (upsert_creates_key k None None db Hk) as Hin.
  destruct (add_or_update_value_type_shape (Some k) None None db) as [_ [Ed Ev]].
  cbv zeta in Ed, Ev.
  split; [now rewrite (add_or_update_value_type_eq k None None db Hk)|].
  split; [exact Hin|]. split; [exact Ev|].
  rewrite (add_value_eq schema t k v db Hk). cbv zeta.
  destruct (Sql.int64 t); [destruct (value_constraint schema _ _)|]; cbn [result commits].
  - split; [now left|]. split; [split; discriminate|]. split; [discriminate|]. split.
    + intros _. eexists. rewrite Ed. reflexivity.
    + intros Fk. pose proof (upsert_keeps_references k None None db Fk) as Fk1.
      repeat constructor; [exact Fk1|].
      intros x Hx. cbn [tbl_value tbl_value_type] in *.
      apply in_app_or in Hx. destruct Hx as [Hx|[<-|[]]]; [|exact Hin].
      apply Fk1. now rewrite Ev.
  - split; [right; now left|]. split; [split; discriminate|]. split; [reflexivity|].
    split; [discriminate|].
    intros Fk. repeat constructor. now apply upsert_keeps_references.
  - split; [right; now right|]. split; [split; reflexivity|]. split; [reflexivity|].
    split; [discriminate|].
    intros Fk. repeat constructor. now apply upsert_keeps_references.
Qed.

Lemma add_value_commits_upsert_first_witness :
  commits (add_or_update_value_type (Some 42) None None empty_db)
  = [durable empty_db (add_or_update_value_type (Some 42) None None empty_db)].
Proof.
  apply (add_value_commits_upsert_first spec_schema 100 42 3.5%float empty_db).
  - reflexivity.
  - constructor.
Defined.

(** C5, as stated, fails.  [add_value] with the time [2^63] fails when
    the value row is bound, after the upsert has committed: the call
    raises and the store is no longer the one it started from, the
    [ValueType] it created is there.  A successful call commits twice, and
    its first snapshot holds the new type without any value. *)
Lemma add_value_failure_keeps_type :
  let failed := add_value spec_schema 9223372036854775808 42 3.5%float empty_db in
  let passed := add_value spec_schema 100 42 3.5%float empty_db in
  let ty := ValueType.mk 42 (Some "TYPE_42"%string) (Some "UNIT_42"%string) in
  result failed = Raise OverflowError
  /\ durable empty_db failed = mkDatabase [ty] [] []
  /\ durable empty_db failed <> empty_db
  /\ commits passed
     = [mkDatabase [ty] [] []; mkDatabase [ty] [] [Value.mk 1 100 (Some 3.5%float) 42]].
Proof.
  cbv zeta. repeat split; try reflexivity. vm_compute. discriminate.
Qed.

(** ** Lookup *)







(** ** Append-only values *)




(** ** Named dimension rows *)

Lemma run_named (schema : Schema) (calls : list Call) (db : Database) :
  named db -> named (run schema calls db).
Proof. apply run_invariant. apply after_named. Qed.

(** C9. After every sequence of calls on a fresh engine, every stored
    [ValueType] has a non-empty name and a non-empty unit and every stored
    [DeviceType] a non-empty name and a non-empty location; and a sequence
    of calls on any store with that property keeps it. *)
Theorem dimension_rows_stay_named (schema : Schema) (calls : list Call) :
  let db := run schema calls empty_db in
  (forall r, In r (tbl_value_type db) ->
             non_empty (ValueType.type_name r) /\ non_empty (ValueType.type_unit r))
  /\ (forall r, In r (tbl_device_type db) ->
                non_empty (DeviceType.name r) /\ non_empty (DeviceType.location r))
  /\ (forall db0, named db0 -> named (run schema calls db0)).
Proof.
  cbv zeta.
  assert (N : named (run schema calls empty_db))
    by (apply run_named; split; constructor).
  destruct N as [Nv Nd]. rewrite Forall_forall in Nv, Nd.
  split; [exact Nv|]. split; [exact Nd|]. intros db0. apply run_named.
Qed.

(** ** Frame of the upserts *)

(** C10. An upsert of [ValueType] [k] leaves the [value_type] rows of
    every other id, the [device_type] table and the [value] table as they
    were; an upsert of [DeviceType] [k] leaves the [device_type] rows of
    every other id, the [value_type] table and the [value] table as they
    were. *)
Theorem upserts_frame (k : Z) (n u dn dl : option string) (db : Database) :
  let db1 := durable db (add_or_update_value_type (Some k) n u db) in
  let db2 := durable db (add_or_update_device (Some k) dn dl db) in
  (filter (fun r => negb (ValueType.id r =? k)) (tbl_value_type db1)
   = filter (fun r => negb (ValueType.id r =? k)) (tbl_value_type db)
   /\ tbl_device_type db1 = tbl_device_type db
   /\ tbl_value db1 = tbl_value db)
  /\ (filter (fun r => negb (DeviceType.id r =? k)) (tbl_device_type db2)
      = filter (fun r => negb (DeviceType.id r =? k)) (tbl_device_type db)
      /\ tbl_value_type db2 = tbl_value_type db
      /\ tbl_value db2 = tbl_value db).
Proof.
  cbv zeta. split.
  - destruct (Sql.int64 k) eqn:Hk;
      [|rewrite (add_or_update_value_type_overflow k n u db Hk); repeat split].
    rewrite (add_or_update_value_type_eq k n u db Hk). cbv zeta. unfold durable.
    cbn [commits last tbl_value_type tbl_device_type tbl_value].
    split; [|split; reflexivity].
    destruct (loaded_value_type k db).
    + now apply (filter_other_update ValueType.id).
    + rewrite filter_app. cbn [filter upserted_value_type ValueType.id].
      rewrite Z.eqb_refl. cbn [negb]. apply app_nil_r.
  - destruct (Sql.int64 k) eqn:Hk;
      [|rewrite (add_or_update_device_overflow k dn dl db Hk); repeat split].
    rewrite (add_or_update_device_eq k dn dl db Hk). cbv zeta. unfold durable.
    cbn [commits last tbl_value_type tbl_device_type tbl_value].
    split; [|split; reflexivity].
    destruct (loaded_device_type k db).
    + now apply (filter_other_update DeviceType.id).
    + rewrite filter_app. cbn [filter upserted_device_type DeviceType.id].
      rewrite Z.eqb_refl. cbn [negb]. apply app_nil_r.
Qed.

(** * Further properties of [Crud] *)

(** ** Helper facts shared by the statements below *)

Lemma resolved_again (supplied stored : option string) (c : Ascii.ascii) (rest : string)
    (default : string) :
  resolved supplied (resolved supplied stored (String c rest)) default
  = resolved supplied stored (String c rest).
Proof.
  unfold resolved. destruct (Py.truthy supplied) eqn:A; [reflexivity|].
  destruct (Py.truthy stored) eqn:B; [now rewrite B|reflexivity].
Qed.

Lemma select_device_after_upsert (k : Z) (n l : option string) (db : Database) :
  Sql.int64 k = true -> device_type_key db ->
  Sql.device_type_rows (Some k) (durable db (add_or_update_device (Some k) n l db))
  = [upserted_device_type k n l db].
Proof.
  intros Hk ND. rewrite (add_or_update_device_eq k n l db Hk). cbv zeta. unfold durable.
  cbn [commits last Sql.device_type_rows tbl_device_type].
  destruct (loaded_device_type k db) as [r|] eqn:L.
  - change k with (DeviceType.id (upserted_device_type k n l db)) at 1.
    rewrite (filter_key_update DeviceType.id). cbn [upserted_device_type DeviceType.id].
    apply loaded_device_type_key in L. destruct L as [Hin Hr].
    destruct (primary_key_select DeviceType.id k (tbl_device_type db) ND)
      as [E|[r' [E _]]]; rewrite E; [|reflexivity].
    exfalso. assert (X : In r (filter (fun x => DeviceType.id x =? k) (tbl_device_type db))).
    { apply filter_In. split; [exact Hin|now apply Z.eqb_eq]. }
    rewrite E in X. exact X.
  - apply loop_none in L. cbn [Sql.device_type_rows] in L.
    rewrite filter_app, L. cbn [filter upserted_device_type DeviceType.id app].
    now rewrite Z.eqb_refl.
Qed.

Lemma loaded_device_of_select (k : Z) (db : Database) (row : DeviceType.t) :
  Sql.device_type_rows (Some k) db = [row] -> loaded_device_type k db = Some row.
Proof. unfold loaded_device_type. now intros ->. Qed.

Lemma upsert_device_fixpoint (k : Z) (n l : option string) (db : Database)
    (row : DeviceType.t) :
  Sql.int64 k = true ->
  Sql.device_type_rows (Some k) db = [row] ->
  upserted_device_type k n l db = row ->
  durable db (add_or_update_device (Some k) n l db) = db.
Proof.
  intros Hk Sel Up. rewrite (add_or_update_device_eq k n l db Hk). cbv zeta. unfold durable.
  cbn [commits last]. rewrite (loaded_device_of_select _ _ _ Sel), Up.
  rewrite (update_unchanged DeviceType.id); [now destruct db|].
  intros r Hin Hr.
  assert (X : In r (Sql.device_type_rows (Some k) db)).
  { apply filter_In. split; [exact Hin|]. apply Z.eqb_eq. rewrite Hr, <- Up. reflexivity. }
  rewrite Sel in X. destruct X as [<-|[]]. reflexivity.
Qed.

Lemma upsert_device_returns (k : Z) (n l : option string) (db : Database) :
  Sql.int64 k = true ->
  result (add_or_update_device (Some k) n l db) = Return (detached k).
Proof. intros Hk. now rewrite (add_or_update_device_eq k n l db Hk). Qed.

Lemma upserted_value_type_again (k : Z) (n u : option string) (db : Database) :
  Sql.int64 k = true -> value_type_key db ->
  upserted_value_type k n u (durable db (add_or_update_value_type (Some k) n u db))
  = upserted_value_type k n u db.
Proof.
  intros Hk ND. unfold upserted_value_type at 1.
  rewrite (loaded_of_select _ _ _ (select_after_upsert k n u db Hk ND)).
  unfold upserted_value_type. cbn [attr ValueType.type_name ValueType.type_unit String.append].
  now rewrite !resolved_again.
Qed.

Lemma upserted_device_type_again (k : Z) (n l : option string) (db : Database) :
  Sql.int64 k = true -> device_type_key db ->
  upserted_device_type k n l (durable db (add_or_update_device (Some k) n l db))
  = upserted_device_type k n l db.
Proof.
  intros Hk ND. unfold upserted_device_type at 1.
  rewrite (loaded_device_of_select _ _ _ (select_device_after_upsert k n l db Hk ND)).
  unfold upserted_device_type. cbn [attr DeviceType.name DeviceType.location String.append].
  now rewrite !resolved_again.
Qed.

(** ** Upserts: idempotence and lookup after write *)

(** X1. Repeating an upsert of a [ValueType] with the same arguments,
    whatever they are, changes nothing: in a store with unique type keys
    the second call returns the row the first returned and leaves the
    store as the first left it. *)
Theorem add_or_update_value_type_idempotent (k : Z) (n u : option string) (db : Database) :
  value_type_key db ->
  let o1 := add_or_update_value_type (Some k) n u db in
  let db1 := durable db o1 in
  let o2 := add_or_update_value_type (Some k) n u db1 in
  result o2 = result o1 /\ durable db1 o2 = db1.
Proof.
  intros ND. cbv zeta. destruct (Sql.int64 k) eqn:Hk.
  - pose proof (upserted_value_type_again k n u db Hk ND) as Again.
    split.
    + now rewrite !(upsert_returns k _ _ _ Hk).
    + apply (upsert_fixpoint k n u _ (upserted_value_type k n u db) Hk).
      * now apply select_after_upsert.
      * exact Again.
  - rewrite !(add_or_update_value_type_overflow k n u _ Hk). split; reflexivity.
Qed.

Lemma add_or_update_value_type_idempotent_witness :
  let db := mkDatabase [ValueType.mk 3 (Some "CO2"%string) None] [] [] in
  let db1 := durable db (add_or_update_value_type (Some 3) None (Some "ppm"%string) db) in
  durable db1 (add_or_update_value_type (Some 3) None (Some "ppm"%string) db1) = db1.
Proof.
  apply (add_or_update_value_type_idempotent 3 None (Some "ppm"%string)
           (mkDatabase [ValueType.mk 3 (Some "CO2"%string) None] [] [])).
  unfold value_type_key. simpl. repeat constructor. simpl. intuition.
Defined.

(** X2. The same for [add_or_update_device]: with unique device keys a
    repeated upsert returns the same row and leaves the store unchanged. *)
Theorem add_or_update_device_idempotent (k : Z) (n l : option string) (db : Database) :
  device_type_key db ->
  let o1 := add_or_update_device (Some k) n l db in
  let db1 := durable db o1 in
  let o2 := add_or_update_device (Some k) n l db1 in
  result o2 = result o1 /\ durable db1 o2 = db1.
Proof.
  intros ND. cbv zeta. destruct (Sql.int64 k) eqn:Hk.
  - pose proof (upserted_device_type_again k n l db Hk ND) as Again.
    split.
    + now rewrite !(upsert_device_returns k _ _ _ Hk).
    + apply (upsert_device_fixpoint k n l _ (upserted_device_type k n l db) Hk).
      * now apply select_device_after_upsert.
      * exact Again.
  - rewrite !(add_or_update_device_overflow k n l _ Hk). split; reflexivity.
Qed.

Lemma add_or_update_device_idempotent_witness :
  let db1 := durable empty_db (add_or_update_device (Some 7) (Some "pump"%string) None empty_db) in
  durable db1 (add_or_update_device (Some 7) (Some "pump"%string) None db1) = db1.
Proof.
  apply (add_or_update_device_idempotent 7 (Some "pump"%string) None empty_db).
  constructor.
Defined.





(** ** Upserts without an id *)

(** X5. An upsert called with [None] as id cannot synthesize a default:
    [add_or_update_value_type] and [add_or_update_device] raise [TypeError]
    exactly when one of the two columns is not supplied non-empty, and
    then they commit nothing. *)
Theorem upsert_without_id (n u : option string) (db : Database) :
  let o := add_or_update_value_type None n u db in
  let o' := add_or_update_device None n u db in
  (result o = Raise TypeError <-> Py.truthy n && Py.truthy u = false)
  /\ (result o = Raise TypeError -> commits o = [])
  /\ (result o' = Raise TypeError <-> Py.truthy n && Py.truthy u = false)
  /\ (result o' = Raise TypeError -> commits o' = []).
Proof.
  cbv zeta. rewrite add_or_update_value_type_no_id, add_or_update_device_no_id. cbv zeta.
  destruct (Py.truthy n && Py.truthy u); cbn [result commits];
    repeat split; intros; try reflexivity; discriminate.
Qed.

(** ** What every sequence of calls keeps *)

(** X6. In the store any sequence of calls builds from a fresh engine,
    the ids of [value_type], of [device_type] and of [value] are each
    unique, and every value references a stored [ValueType]. *)
Theorem fresh_engine_keys_and_references (schema : Schema) (calls : list Call) :
  let db := run schema calls empty_db in
  NoDup (map ValueType.id (tbl_value_type db))
  /\ NoDup (map DeviceType.id (tbl_device_type db))
  /\ NoDup (map Value.id (tbl_value db))
  /\ (forall v, In v (tbl_value db) ->
                exists ty, In ty (tbl_value_type db)
                           /\ ValueType.id ty = Value.value_type_id v).
Proof.
  cbv zeta.
  assert (C : consistent (run schema calls empty_db)).
  { apply run_invariant; [apply after_consistent|apply empty_db_consistent]. }
  destruct C as (A & B & C & D). repeat split; try assumption.
  intros v Hv. apply D, in_map_iff in Hv. destruct Hv as [ty [E Hty]]. now exists ty.
Qed.

Lemma after_values_prefix (schema : Schema) (call : Call) (db : Database) :
  exists added, tbl_value (after schema call db) = tbl_value db ++ added.
Proof.
  destruct call as [i n u|i n l|t k v| |i|i s e|i]; cbn [after].
  - destruct (add_or_update_value_type_shape i n u db) as [_ [_ E]].
    exists []. now rewrite app_nil_r.
  - destruct (add_or_update_device_shape i n l db) as [_ [_ E]].
    exists []. now rewrite app_nil_r.
  - destruct (add_or_update_value_type_shape (Some k) None None db) as [_ [_ E]].
    destruct (add_value_durable schema t k v db) as [->|[_ ->]].
    + exists []. now rewrite app_nil_r.
    + eexists. reflexivity.
  - exists []. now rewrite app_nil_r.
  - unfold durable. rewrite get_value_type_commits. exists []. now rewrite app_nil_r.
  - exists []. now rewrite app_nil_r.
  - unfold durable. rewrite get_device_type_commits. exists []. now rewrite app_nil_r.
Qed.

Lemma after_dimension_ids (schema : Schema) (call : Call) (db : Database) :
  (forall k, In k (map ValueType.id (tbl_value_type db)) ->
             In k (map ValueType.id (tbl_value_type (after schema call db))))
  /\ (forall k, In k (map DeviceType.id (tbl_device_type db)) ->
                In k (map DeviceType.id (tbl_device_type (after schema call db)))).
Proof.
  destruct call as [i n u|i n l|t k v| |i|i s e|i]; cbn [after].
  - destruct (add_or_update_value_type_shape i n u db) as [S [E _]].
    split; intros x Hx; [eapply upsert_shape_keys_stay; eassumption|now rewrite E].
  - destruct (add_or_update_device_shape i n l db) as [S [E _]].
    split; intros x Hx; [now rewrite E|eapply upsert_shape_keys_stay; eassumption].
  - destruct (add_or_update_value_type_shape (Some k) None None db) as [S [E _]].
    destruct (add_value_durable schema t k v db) as [->|[_ ->]];
      cbn [tbl_value_type tbl_device_type];
      (split; intros x Hx; [eapply upsert_shape_keys_stay; eassumption|now rewrite ?E]).
  - split; intros x Hx; exact Hx.
  - unfold durable. rewrite get_value_type_commits. split; intros x Hx; exact Hx.
  - split; intros x Hx; exact Hx.
  - unfold durable. rewrite get_device_type_commits. split; intros x Hx; exact Hx.
Qed.

(** X7. Values are append-only: whatever the calls, the [value] rows a
    store held before are afterwards still there, unchanged and in the
    same order, as the front of the table. *)
Theorem values_append_only (schema : Schema) (calls : list Call) (db : Database) :
  exists added, tbl_value (run schema calls db) = tbl_value db ++ added.
Proof.
  revert db. induction calls as [|call calls IH]; intros db.
  - exists []. simpl. now rewrite app_nil_r.
  - cbn [run fold_left]. destruct (IH (after schema call db)) as [later E].
    destruct (after_values_prefix schema call db) as [first F].
    exists (first ++ later). unfold run in E. rewrite E, F. now rewrite app_assoc.
Qed.

(** X8. No call deletes a dimension row: an id stored in [value_type] or
    in [device_type] before a sequence of calls is stored there after it. *)
Theorem dimension_ids_never_deleted (schema : Schema) (calls : list Call) (db : Database) :
  (forall k, In k (map ValueType.id (tbl_value_type db)) ->
             In k (map ValueType.id (tbl_value_type (run schema calls db))))
  /\ (forall k, In k (map DeviceType.id (tbl_device_type db)) ->
                In k (map DeviceType.id (tbl_device_type (run schema calls db)))).
Proof.
  revert db. induction calls as [|call calls IH]; intros db; [split; intros k H; exact H|].
  cbn [run fold_left]. destruct (IH (after schema call db)) as [A B].
  destruct (after_dimension_ids schema call db) as [A0 B0].
  split; intros k H; [apply A, A0, H|apply B, B0, H].
Qed.

(** X9. In the store any sequence of calls builds from a fresh engine no
    lookup can meet two rows: for an id of the signed 64-bit range,
    [get_value_type] and [get_device_type] either return the one row of
    that id or raise [NoResultFound] because the id is not stored;
    [MultipleResultsFound] does not occur. *)
Theorem lookups_on_fresh_engine (schema : Schema) (calls : list Call) (k : Z) :
  Sql.int64 k = true ->
  let db := run schema calls empty_db in
  ((result (get_value_type k db) = Raise NoResultFound
    /\ ~ In k (map ValueType.id (tbl_value_type db)))
   \/ exists r, result (get_value_type k db) = Return r
                /\ In r (tbl_value_type db) /\ ValueType.id r = k)
  /\ ((result (get_device_type k db) = Raise NoResultFound
       /\ ~ In k (map DeviceType.id (tbl_device_type db)))
      \/ exists r, result (get_device_type k db) = Return r
                   /\ In r (tbl_device_type db) /\ DeviceType.id r = k).
Proof.
  intros Hk. cbv zeta.
  assert (C : consistent (run schema calls empty_db)).
  { apply run_invariant; [apply after_consistent|apply empty_db_consistent]. }
  destruct C as (Kv & Kd & _ & _). split.
  - unfold get_value_type, bind, scalars, eval.
    rewrite (select_value_type_in_range k _ Hk). cbn [result commits durable last app].
    unfold Sql.value_type_rows.
    destruct (primary_key_select ValueType.id k _ Kv) as [E|[r [E [Hin Hr]]]]; rewrite E.
    + left. split; [reflexivity|].
      now apply existsb_eqb_false, (filter_key_absent ValueType.id).
    + right. now exists r.
  - unfold get_device_type, bind, scalars, eval.
    rewrite (select_device_type_in_range k _ Hk). cbn [result commits durable last app].
    unfold Sql.device_type_rows.
    destruct (primary_key_select DeviceType.id k _ Kd) as [E|[r [E [Hin Hr]]]]; rewrite E.
    + left. split; [reflexivity|].
      now apply existsb_eqb_false, (filter_key_absent DeviceType.id).
    + right. now exists r.
Qed.

Lemma lookups_on_fresh_engine_witness :
  let db := run spec_schema [AddValue 100 1 97%float; AddOrUpdateDevice (Some 7) None None]
              empty_db in
  (result (get_device_type 1 db) = Raise NoResultFound
   /\ ~ In 1 (map DeviceType.id (tbl_device_type db)))
  \/ exists r, result (get_device_type 1 db) = Return r
               /\ In r (tbl_device_type db) /\ DeviceType.id r = 1.
Proof.
  apply (lookups_on_fresh_engine spec_schema
           [AddValue 100 1 97%float; AddOrUpdateDevice (Some 7) None None] 1).
  reflexivity.
Defined.

(** ** The measurement writer and the query *)

Lemma select_of_stored (k : Z) (db : Database) (r : ValueType.t) :
  value_type_key db -> In r (tbl_value_type db) -> ValueType.id r = k ->
  Sql.value_type_rows (Some k) db = [r].
Proof.
  intros ND Hin Hr. unfold Sql.value_type_rows.
  destruct (primary_key_select ValueType.id k (tbl_value_type db) ND) as [E|[r' [E _]]].
  - exfalso. assert (X : In r (filter (fun x => ValueType.id x =? k) (tbl_value_type db))).
    { apply filter_In. split; [exact Hin|now apply Z.eqb_eq]. }
    rewrite E in X. exact X.
  - rewrite E. f_equal.
    assert (X : In r (filter (fun x => ValueType.id x =? k) (tbl_value_type db))).
    { apply filter_In. split; [exact Hin|now apply Z.eqb_eq]. }
    rewrite E in X. destruct X as [X|[]]. exact X.
Qed.

(** X10. [add_value] for a type that is stored with a non-empty name and
    unit (unique keys) does not touch the dimension tables: [value_type]
    and [device_type] are afterwards what they were, whether the value row
    was accepted or refused. *)
Theorem add_value_keeps_stored_type
    (schema : Schema) (t k : Z) (v : float) (db : Database) (r : ValueType.t) :
  value_type_key db ->
  In r (tbl_value_type db) -> ValueType.id r = k ->
  Py.truthy (ValueType.type_name r) = true -> Py.truthy (ValueType.type_unit r) = true ->
  let db' := durable db (add_value schema t k v db) in
  tbl_value_type db' = tbl_value_type db /\ tbl_device_type db' = tbl_device_type db.
Proof.
  intros ND Hin Hr Tn Tu. cbv zeta.
  destruct (Sql.int64 k) eqn:Hk;
    [|rewrite (add_value_overflow schema t k v db Hk); split; reflexivity].
  pose proof (select_of_stored k db r ND Hin Hr) as Sel.
  assert (Up : upserted_value_type k None None db = r).
  { unfold upserted_value_type, resolved. rewrite (loaded_of_select _ _ _ Sel).
    cbn [attr Py.truthy]. rewrite Tn, Tu. destruct r; simpl in *; now subst. }
  pose proof (upsert_fixpoint k None None db r Hk Sel Up) as Fix.
  destruct (add_value_durable schema t k v db) as [E|[_ E]]; cbv zeta in E; rewrite E, ?Fix;
    split; reflexivity.
Qed.

Lemma add_value_keeps_stored_type_witness :
  let db := mkDatabase [ValueType.mk 1 (Some "temperature"%string) (Some "C"%string)] [] [] in
  tbl_value_type (durable db (add_value spec_schema 100 1 21.5%float db)) = tbl_value_type db.
Proof.
  apply (add_value_keeps_stored_type spec_schema 100 1 21.5%float
           (mkDatabase [ValueType.mk 1 (Some "temperature"%string) (Some "C"%string)] [] [])
           (ValueType.mk 1 (Some "temperature"%string) (Some "C"%string))).
  - unfold value_type_key. simpl. repeat constructor. simpl. intuition.
  - simpl. now left.
  - reflexivity.
  - reflexivity.
  - reflexivity.
Defined.



Lemma filter_empty_window (s e : Z) (l : list Value.t) :
  e < s ->
  filter (fun v => Value.time v <=? e) (filter (fun v => Value.time v >=? s) l) = [].
Proof.
  intros H. induction l as [|v l IH]; simpl; [reflexivity|].
  destruct (Value.time v >=? s) eqn:A; [|exact IH]. simpl.
  destruct (Value.time v <=? e) eqn:B; [|exact IH].
  rewrite Z.geb_leb in A. apply Z.leb_le in A, B. lia.
Qed.

(** X12. An empty time window selects nothing: with [end_ < start], both
    and the type filter in the signed 64-bit range, [get_values] returns
    the empty list for every store, and the route [GET /value/] answers
    with the empty list; it does not raise and does not answer 404. *)
Theorem get_values_empty_window (i : option Z) (s e : Z) (db : Database) :
  Sql.bindable [i; Some s; Some e] = true ->
  e < s ->
  get_values i (Some s) (Some e) db = mkOutcome (Return []) []
  /\ Api.get_values i (Some s) (Some e) db = Api.Returns [].
Proof.
  intros B H.
  assert (E : get_values i (Some s) (Some e) db = mkOutcome (Return []) []).
  { unfold get_values, scalars, Sql.execute. cbv zeta. rewrite B.
    now rewrite filter_empty_window. }
  split; [exact E|]. unfold Api.get_values. now rewrite E.
Qed.

Lemma get_values_empty_window_witness :
  Api.get_values None (Some 200) (Some 100)
    (run spec_schema [AddValue 150 1 0.5%float] empty_db)
  = Api.Returns [].
Proof.
  apply (get_values_empty_window None 200 100
           (run spec_schema [AddValue 150 1 0.5%float] empty_db)).
  - reflexivity.
  - lia.
Defined.

(** X13. Filtering by a type id of the signed 64-bit range under which no
    [ValueType] is stored returns the empty list, in every store (the
    other filters in range too): the type filter is a join with
    [value_type], so even a value row carrying that id is not selected.
    The route answers with the empty list, not with 404. *)
Theorem get_values_unknown_type (k : Z) (s e : option Z) (db : Database) :
  Sql.bindable [Some k; s; e] = true ->
  ~ In k (map ValueType.id (tbl_value_type db)) ->
  get_values (Some k) s e db = mkOutcome (Return []) []
  /\ Api.get_values (Some k) s e db = Api.Returns [].
Proof.
  intros B Absent.
  assert (J : filter (fun row : Value.t * ValueType.t => ValueType.id (snd row) =? k)
                (Sql.join_value_type (tbl_value db) db) = []).
  { unfold Sql.join_value_type.
    induction (tbl_value db) as [|v l IH]; [reflexivity|].
    cbn [flat_map]. rewrite filter_app, IH, app_nil_r. clear IH.
    induction (tbl_value_type db) as [|ty tys IHt]; [reflexivity|].
    cbn [filter]. cbn [map] in Absent.
    assert (N : (ValueType.id ty =? k) = false)
      by (apply Z.eqb_neq; intros X; apply Absent; now left).
    assert (A' : ~ In k (map ValueType.id tys)) by (intros X; apply Absent; now right).
    destruct (ValueType.id ty =? Value.value_type_id v); cbn [map filter snd];
      rewrite ?N; now apply IHt. }
  assert (E : get_values (Some k) s e db = mkOutcome (Return []) []).
  { unfold get_values, scalars, Sql.execute. cbv zeta. rewrite B, J. now destruct s, e. }
  split; [exact E|]. unfold Api.get_values. now rewrite E.
Qed.

Lemma get_values_unknown_type_witness :
  get_values (Some 9) None None
    (mkDatabase [ValueType.mk 1 (Some "a"%string) (Some "b"%string)] []
                [Value.mk 1 100 (Some 0.5%float) 9])
  = mkOutcome (Return []) [].
Proof.
  apply (get_values_unknown_type 9 None None
           (mkDatabase [ValueType.mk 1 (Some "a"%string) (Some "b"%string)] []
                       [Value.mk 1 100 (Some 0.5%float) 9])).
  - reflexivity.
  - simpl. intuition lia.
Defined.

(** ** Routes *)

Lemma filter_key_nil_iff {R : Type} (key : R -> Z) (k : Z) (l : list R) :
  filter (fun r => key r =? k) l = [] <-> ~ In k (map key l).
Proof.
  split.
  - intros E. now apply existsb_eqb_false, filter_key_absent.
  - intros H. apply filter_key_present.
    destruct (existsb (Z.eqb k) (map key l)) eqn:X; [|reflexivity].
    apply existsb_exists in X. destruct X as [x [Hin Hx]]. apply Z.eqb_eq in Hx. now subst.
Qed.

(** X14. For an id of the signed 64-bit range, the routes
    [GET /type/{id}/] and [GET /device/{id}/] answer 404 exactly when no
    row of that id is stored, in every store; with unique keys a stored id
    is answered with its row. *)
Theorem read_routes_not_found (k : Z) (db : Database) :
  Sql.int64 k = true ->
  (Api.read_type k db = Api.HTTPException 404 "Item not found"
   <-> ~ In k (map ValueType.id (tbl_value_type db)))
  /\ (Api.read_device k db = Api.HTTPException 404 "Device not found"
      <-> ~ In k (map DeviceType.id (tbl_device_type db)))
  /\ (value_type_key db ->
      forall r, In r (tbl_value_type db) -> ValueType.id r = k ->
                Api.read_type k db = Api.Returns r)
  /\ (device_type_key db ->
      forall r, In r (tbl_device_type db) -> DeviceType.id r = k ->
                Api.read_device k db = Api.Returns r).
Proof.
  intros Hk.
  assert (Tv : result (get_value_type k db)
               = Sql.one (filter (fun r => ValueType.id r =? k) (tbl_value_type db))).
  { unfold get_value_type, bind, scalars, eval.
    rewrite (select_value_type_in_range k db Hk). reflexivity. }
  assert (Td : result (get_device_type k db)
               = match Sql.one_or_none
                         (filter (fun r => DeviceType.id r =? k) (tbl_device_type db)) with
                 | Return (Some found) => Return found
                 | Return None => Raise NoResultFound
                 | Raise e => Raise e
                 end).
  { unfold get_device_type, bind, scalars, eval.
    rewrite (select_device_type_in_range k db Hk).
    cbn [result commits durable last app].
    unfold Sql.device_type_rows. destruct (Sql.one_or_none _) as [[found|]|e]; reflexivity. }
  unfold Api.read_type, Api.read_device. rewrite Tv, Td.
  rewrite <- (filter_key_nil_iff ValueType.id), <- (filter_key_nil_iff DeviceType.id).
  split; [|split; [|split]].
  - destruct (filter _ (tbl_value_type db)) as [|r [|r' rest]]; cbn [Sql.one];
      split; intros H; try reflexivity; discriminate.
  - destruct (filter _ (tbl_device_type db)) as [|r [|r' rest]]; cbn [Sql.one_or_none];
      split; intros H; try reflexivity; discriminate.
  - intros ND r Hin Hr. pose proof (select_of_stored k db r ND Hin Hr) as Sel.
    unfold Sql.value_type_rows in Sel. now rewrite Sel.
  - intros ND r Hin Hr.
    destruct (primary_key_select DeviceType.id k (tbl_device_type db) ND) as [E|[r' [E _]]].
    + exfalso.
      assert (X : In r (filter (fun x => DeviceType.id x =? k) (tbl_device_type db))).
      { apply filter_In. split; [exact Hin|now apply Z.eqb_eq]. }
      rewrite E in X. exact X.
    + assert (X : In r (filter (fun x => DeviceType.id x =? k) (tbl_device_type db))).
      { apply filter_In. split; [exact Hin|now apply Z.eqb_eq]. }
      rewrite E in X. destruct X as [<-|[]]. now rewrite E.
Qed.

Lemma read_routes_not_found_witness :
  Api.read_type 9 (run spec_schema [AddValue 100 1 97%float] empty_db)
  = Api.HTTPException 404 "Item not found"
  <-> ~ In 9 (map ValueType.id
                (tbl_value_type (run spec_schema [AddValue 100 1 97%float] empty_db))).
Proof.
  apply (read_routes_not_found 9 (run spec_schema [AddValue 100 1 97%float] empty_db)).
  reflexivity.
Defined.

(** X15. After [POST /value/] the type of the posted value can be read:
    for a posted [value_type_id] of the signed 64-bit range and unique
    type keys, [post_value] answers ["Value added!"] or lets
    [IntegrityError] escape or, exactly when the posted time is outside
    the 64-bit range, lets [OverflowError] escape; in every case
    [GET /type/{id}/] for the posted type id then answers with a row of
    that id whose name and unit are non-empty, not with 404. *)
Theorem read_type_after_post_value (schema : Schema) (value : Api.ValueNoID) (db : Database) :
  Sql.int64 (Api.value_type_id value) = true ->
  value_type_key db ->
  let posted := Api.post_value schema value db in
  (fst posted = Api.Returns "Value added!"%string
   \/ fst posted = Api.Escapes IntegrityError
   \/ fst posted = Api.Escapes OverflowError)
  /\ (fst posted = Api.Escapes OverflowError <-> Sql.int64 (Api.time value) = false)
  /\ exists row,
       Api.read_type (Api.value_type_id value) (snd posted) = Api.Returns row
       /\ ValueType.id row = Api.value_type_id value
       /\ non_empty (ValueType.type_name row)
       /\ non_empty (ValueType.type_unit row).
Proof.
  intros Hk ND. cbv zeta. unfold Api.post_value. cbn [fst snd].
  destruct value as [t k v]. cbn [Api.time Api.value_type_id Api.value] in *.
  split; [|split].
  - rewrite (add_value_eq schema t k v db Hk). cbv zeta.
    destruct (Sql.int64 t); [destruct (value_constraint schema _ _)|]; cbn [result];
      [now left|right; now left|right; now right].
  - rewrite (add_value_eq schema t k v db Hk). cbv zeta.
    destruct (Sql.int64 t); [destruct (value_constraint schema _ _)|]; cbn [result];
      split; intros H; try reflexivity; discriminate.
  - exists (upserted_value_type k None None db).
    pose proof (select_after_upsert k None None db Hk ND) as Sel.
    assert (Sel' : Sql.value_type_rows (Some k) (durable db (add_value schema t k v db))
                   = [upserted_value_type k None None db]).
    { destruct (add_value_durable schema t k v db) as [E|[_ E]]; cbv zeta in E; rewrite E;
        exact Sel. }
    split; [|split; [reflexivity|apply upserted_value_type_named]].
    unfold Api.read_type, get_value_type, bind, scalars, eval.
    rewrite (select_value_type_in_range k _ Hk).
    cbn [result commits durable last app]. now rewrite Sel'.
Qed.

Lemma read_type_after_post_value_witness :
  exists row,
    Api.read_type 16400
      (snd (Api.post_value spec_schema
              (Api.mkValueNoID 9223372036854775808 16400 97%float) empty_db))
    = Api.Returns row
    /\ ValueType.id row = 16400
    /\ non_empty (ValueType.type_name row)
    /\ non_empty (ValueType.type_unit row).
Proof.
  apply (read_type_after_post_value spec_schema
           (Api.mkValueNoID 9223372036854775808 16400 97%float) empty_db).
  - reflexivity.
  - constructor.
Defined.

(** ** Synthesized defaults *)

Lemma str_parses_back (n : Z) : NilZero.int_of_string (Py.str n) = Some (Z.to_int n).
Proof.
  unfold Py.str. apply NilZero.isi; destruct n as [|p|p]; simpl; try discriminate;
    intros [= H]; now apply DecimalPos.Unsigned.to_uint_nonnil in H.
Qed.

Lemma append_cancel (prefix a b : string) :
  (prefix ++ a)%string = (prefix ++ b)%string -> a = b.
Proof.
  induction prefix as [|c prefix IH]; simpl; [trivial|].
  intros [= H]. now apply IH.
Qed.

(** X16. The synthesized defaults tell the ids apart: for two different
    ids, ["<prefix>%d" % id] gives two different strings, so no two rows
    filled in by default share a default name, unit or location. *)
Theorem defaults_differ (prefix : string) (a b : Z) :
  a <> b -> Py.percent_d prefix (Some a) <> Py.percent_d prefix (Some b).
Proof.
  intros Hab E. apply Hab. unfold Py.percent_d in E. injection E as E.
  apply append_cancel in E.
  assert (X : Some (Z.to_int a) = Some (Z.to_int b))
    by now rewrite <- !str_parses_back, E.
  injection X as X. apply (f_equal Z.of_int) in X. now rewrite !DecimalZ.of_to in X.
Qed.

Lemma defaults_differ_witness :
  1 <> 11 /\ Py.percent_d "TYPE_" (Some 1) <> Py.percent_d "TYPE_" (Some 11).
Proof.
  split; [lia|]. apply (defaults_differ "TYPE_" 1 11). lia.
Defined.
